(** * avr-kernel: the kernel state, the public thread API and the tick ISR

    A shallow embedding of [src/kernel/core/kernel.c].  Kernel variables are
    the fields of one record, fixed-width integers are [Z] with their
    wrap-around written out, the arrays [kn_stack] and [kn_sleep_counter] are
    lists indexed by slot id, and data memory is a finite map from addresses
    to bytes.  A function whose C source has undefined behaviour on some
    input (a failed [kn_assert], an array access out of bounds) returns
    [None] there. *)

From stdpp Require Import base option list gmap.
From Equations Require Import Equations.
From Stdlib Require Import ZArith Lia.

Local Open Scope Z_scope.

(** ** Fixed-width arithmetic *)

Definition u8 (x : Z) : Z := x mod 2 ^ 8.
Definition u16 (x : Z) : Z := x mod 2 ^ 16.
Definition u32 (x : Z) : Z := x mod 2 ^ 32.

Definition UINT16_MAX : Z := 65535.

(** Modelled from the spec: [kn_assert] of [kernel_debug.h].  A violated
    precondition is "signaled via a debug assertion facility; in release
    builds, behavior is undefined": either way the call has no result. *)
Definition kn_assert (c : bool) : option unit :=
  if c then Some () else None.

(** Array accesses: outside the array the C behaviour is undefined. *)
Definition load (a : list Z) (i : Z) : option Z :=
  if decide (0 <= i) then a !! Z.to_nat i else None.

Definition store (a : list Z) (i v : Z) : option (list Z) :=
  if decide (0 <= i < Z.of_nat (length a))
  then Some (<[Z.to_nat i := v]> a) else None.

(** ** Compile-time configuration ([config.h], [stacks.h])

    These headers are not part of the sources at hand; what [kernel.c] takes
    from them is collected here.  [kn_stack_base] and [kn_canary_loc] are the
    two flash tables of [kernel.c], which the preprocessor fills with one
    entry per slot for at most eight slots. *)

Class Config := {
  MAX_THREADS : Z;
  (** [kn_stack_base] has one to eight entries and [kn_bitmasks] has eight *)
  MAX_THREADS_range : 1 <= MAX_THREADS <= 8;
  kn_stack_base : list Z;
  INITIAL_STACK_USAGE : Z;
  KERNEL_USE_STACK_CANARY : bool;
  kn_canary_loc : list Z;
  STACK_CANARY : Z;
  (** address of the assembly routine [kn_thread_bootstrap] *)
  kn_thread_bootstrap : Z
}.

(** Modelled from the spec: [THREAD0] of [kernel.h], the id of slot 0, which
    "is always the initial thread". *)
Definition THREAD0 : Z := 0.

(** Bitmasks used for converting a thread id to a thread mask. *)
Definition kn_bitmasks : list Z :=
  [0x01; 0x02; 0x04; 0x08; 0x10; 0x20; 0x40; 0x80].

(** Modelled from the spec: [bit_to_mask] of [util.h], the table lookup that
    converts a thread id to "a bit at position equal to the thread ID". *)
Definition bit_to_mask (t_id : Z) : option Z := load kn_bitmasks t_id.

(** ** Kernel state *)

(** The I/O registers [kernel.c] writes. *)
Record io_regs := IoRegs {
  SP : Z;
  TCCR0A : Z;
  TCCR0B : Z;
  OCR0A : Z;
  TIMSK0 : Z;
  SMCR : Z
}.

Record kernel := Kernel {
  (** id of the currently executing thread *)
  kn_cur_thread : Z;
  (** mask of the currently executing thread *)
  kn_cur_thread_mask : Z;
  (** threads that are inactive *)
  kn_disabled_threads : Z;
  (** threads that have their execution suspended *)
  kn_suspended_threads : Z;
  (** threads that are sleeping for some time *)
  kn_sleeping_threads : Z;
  (** saved stack locations for each thread *)
  kn_stack : list Z;
  (** sleep times for each thread *)
  kn_sleep_counter : list Z;
  (** total system uptime, in milliseconds *)
  kn_system_counter : Z;
  (** data memory, byte per address *)
  ram : gmap Z Z;
  io : io_regs
}.

Definition with_cur (t m : Z) (k : kernel) : kernel :=
  Kernel t m (kn_disabled_threads k) (kn_suspended_threads k)
    (kn_sleeping_threads k) (kn_stack k) (kn_sleep_counter k)
    (kn_system_counter k) (ram k) (io k).

Definition with_disabled (d : Z) (k : kernel) : kernel :=
  Kernel (kn_cur_thread k) (kn_cur_thread_mask k) d (kn_suspended_threads k)
    (kn_sleeping_threads k) (kn_stack k) (kn_sleep_counter k)
    (kn_system_counter k) (ram k) (io k).

Definition with_suspended (s : Z) (k : kernel) : kernel :=
  Kernel (kn_cur_thread k) (kn_cur_thread_mask k) (kn_disabled_threads k) s
    (kn_sleeping_threads k) (kn_stack k) (kn_sleep_counter k)
    (kn_system_counter k) (ram k) (io k).

Definition with_sleeping (s : Z) (k : kernel) : kernel :=
  Kernel (kn_cur_thread k) (kn_cur_thread_mask k) (kn_disabled_threads k)
    (kn_suspended_threads k) s (kn_stack k) (kn_sleep_counter k)
    (kn_system_counter k) (ram k) (io k).

Definition with_stack (s : list Z) (k : kernel) : kernel :=
  Kernel (kn_cur_thread k) (kn_cur_thread_mask k) (kn_disabled_threads k)
    (kn_suspended_threads k) (kn_sleeping_threads k) s (kn_sleep_counter k)
    (kn_system_counter k) (ram k) (io k).

Definition with_sleep_counter (c : list Z) (k : kernel) : kernel :=
  Kernel (kn_cur_thread k) (kn_cur_thread_mask k) (kn_disabled_threads k)
    (kn_suspended_threads k) (kn_sleeping_threads k) (kn_stack k) c
    (kn_system_counter k) (ram k) (io k).

Definition with_system_counter (c : Z) (k : kernel) : kernel :=
  Kernel (kn_cur_thread k) (kn_cur_thread_mask k) (kn_disabled_threads k)
    (kn_suspended_threads k) (kn_sleeping_threads k) (kn_stack k)
    (kn_sleep_counter k) c (ram k) (io k).

Definition with_ram (m : gmap Z Z) (k : kernel) : kernel :=
  Kernel (kn_cur_thread k) (kn_cur_thread_mask k) (kn_disabled_threads k)
    (kn_suspended_threads k) (kn_sleeping_threads k) (kn_stack k)
    (kn_sleep_counter k) (kn_system_counter k) m (io k).

Definition with_io (r : io_regs) (k : kernel) : kernel :=
  Kernel (kn_cur_thread k) (kn_cur_thread_mask k) (kn_disabled_threads k)
    (kn_suspended_threads k) (kn_sleeping_threads k) (kn_stack k)
    (kn_sleep_counter k) (kn_system_counter k) (ram k) r.

Definition with_SP (sp : Z) (r : io_regs) : io_regs :=
  IoRegs sp (TCCR0A r) (TCCR0B r) (OCR0A r) (TIMSK0 r) (SMCR r).

(** [p[off] = v] for a byte pointer [p] into data memory. *)
Definition poke (p off v : Z) (k : kernel) : kernel :=
  with_ram (<[u16 (p + off) := v]> (ram k)) k.

(** Bit [i] of a thread bitset. *)
Definition slot_bit (set i : Z) : bool := Z.testbit set i.

(** What the C types guarantee of a kernel state: both arrays have
    [MAX_THREADS] elements, every variable is within its type, and the
    current thread id is the id of a slot. *)
Record kernel_typed `{Config} (k : kernel) : Prop := KernelTyped {
  typed_cur : 0 <= kn_cur_thread k < MAX_THREADS;
  typed_disabled : 0 <= kn_disabled_threads k < 2 ^ 8;
  typed_suspended : 0 <= kn_suspended_threads k < 2 ^ 8;
  typed_sleeping : 0 <= kn_sleeping_threads k < 2 ^ 8;
  typed_stack_len : Z.of_nat (length (kn_stack k)) = MAX_THREADS;
  typed_counter_len : Z.of_nat (length (kn_sleep_counter k)) = MAX_THREADS;
  typed_counter : Forall (λ c, 0 <= c < 2 ^ 16) (kn_sleep_counter k);
  typed_system_counter : 0 <= kn_system_counter k < 2 ^ 32
}.

(** The two flash tables have one entry per slot. *)
Definition tables_ok `{Config} : Prop :=
  Z.of_nat (length kn_stack_base) = MAX_THREADS ∧
  (KERNEL_USE_STACK_CANARY = true →
   Z.of_nat (length kn_canary_loc) = MAX_THREADS).

Section Kernel.
Context `{Config}.

(** ** The tick interrupt *)

(** The [while] loop of the ISR.  [sleeping], [t_id] and [mask] are its three
    locals; the sleep counters are updated in the kernel state. *)
Equations? isr_loop (sleeping t_id mask : Z) (k : kernel) : option (Z * kernel)
  by wf (Z.to_nat (MAX_THREADS - t_id)) lt :=
  isr_loop sleeping t_id mask k
    with decide (sleeping ≠ 0 ∧ t_id < MAX_THREADS) => {
    | right _ := Some (sleeping, k);
    | left Hc with decide (Z.land sleeping mask ≠ 0) => {
      | right _ := isr_loop sleeping (u8 (t_id + 1)) (u8 (Z.shiftl mask 1)) k;
      | left _ with load (kn_sleep_counter k) t_id => {
        | None := None;
        | Some c with store (kn_sleep_counter k) t_id (u16 (c - 1)) => {
          | None := None;
          | Some cs :=
              isr_loop
                (if decide (u16 (c - 1) = 0)
                 then u8 (Z.land sleeping (Z.lnot mask)) else sleeping)
                (u8 (t_id + 1)) (u8 (Z.shiftl mask 1))
                (with_sleep_counter cs k) } } } }.
Proof.
  all: pose proof MAX_THREADS_range; unfold u8;
    pose proof (Z.mod_pos_bound (t_id + 1) (2 ^ 8) eq_refl);
    destruct (decide (0 <= t_id + 1));
    [rewrite Z.mod_small by lia|]; lia.
Qed.

(** [ISR(TIMER0_COMPA_vect)] *)
Definition TIMER0_COMPA_vect (k : kernel) : option kernel :=
  let k := with_system_counter (u32 (kn_system_counter k + 1)) k in
  '(sleeping, k) ← isr_loop (kn_sleeping_threads k) THREAD0 0x01 k;
  Some (with_sleeping sleeping k).

(** ** Thread creation and initialisation *)

(** The part of [kn_create_thread_impl] before its last [if]: the stack
    frame and the kernel state of the new thread. *)
Definition kn_create_thread_setup (t_id entry_point : Z) (suspended : bool)
    (arg : Z) (k : kernel) : option kernel :=
  _ ← kn_assert (bool_decide (t_id < MAX_THREADS));
  _ ← kn_assert (bool_decide (entry_point ≠ 0));
  (* set the initial state of the thread's stack *)
  base ← load kn_stack_base t_id;
  let sp := u16 (base - INITIAL_STACK_USAGE) in
  stack ← store (kn_stack k) t_id sp;
  let k := with_stack stack k in
  (* 2 bytes for the entry point address *)
  let k := poke sp 25 (Z.land (u16 entry_point) 0x00FF) k in
  let k := poke sp 24 (Z.shiftr (u16 entry_point) 8) k in
  (* 2 bytes for arg *)
  let k := poke sp 23 (Z.land (u16 arg) 0x00FF) k in
  let k := poke sp 22 (Z.shiftr (u16 arg) 8) k in
  (* 1 byte for the thread id *)
  let k := poke sp 21 t_id k in
  (* 2 bytes for the bootstrap address *)
  let k := poke sp 20 (Z.land (u16 kn_thread_bootstrap) 0x00FF) k in
  let k := poke sp 19 (Z.shiftr (u16 kn_thread_bootstrap) 8) k in
  (* update kernel state for the new thread *)
  mask ← bit_to_mask t_id;
  let k :=
    with_disabled (u8 (Z.land (kn_disabled_threads k) (Z.lnot mask))) k in
  let k :=
    with_sleeping (u8 (Z.land (kn_sleeping_threads k) (Z.lnot mask))) k in
  let k :=
    with_suspended
      (if suspended
       then u8 (Z.lor (kn_suspended_threads k) mask)
       else u8 (Z.land (kn_suspended_threads k) (Z.lnot mask))) k in
  counters ← store (kn_sleep_counter k) t_id 0;
  Some (with_sleep_counter counters k).

(** One round of the [for] loop of [kn_init]. *)
Definition kn_init_slot (i : Z) (k : kernel) : option kernel :=
  base ← load kn_stack_base i;
  stack ← store (kn_stack k) i base;
  counters ← store (kn_sleep_counter k) i 0;
  let k := with_sleep_counter counters (with_stack stack k) in
  if KERNEL_USE_STACK_CANARY
  then canary ← load kn_canary_loc i; Some (poke canary 0 STACK_CANARY k)
  else Some k.

Equations? kn_init_loop (i : Z) (k : kernel) : option kernel
  by wf (Z.to_nat (MAX_THREADS - i)) lt :=
  kn_init_loop i k with decide (i < MAX_THREADS) => {
    | right _ := Some k;
    | left Hi with kn_init_slot i k => {
      | None := None;
      | Some k' := kn_init_loop (u8 (i + 1)) k' } }.
Proof.
  pose proof MAX_THREADS_range; unfold u8;
    pose proof (Z.mod_pos_bound (i + 1) (2 ^ 8) eq_refl);
    destruct (decide (0 <= i + 1));
    [rewrite Z.mod_small by lia|]; lia.
Qed.

Definition kn_init (k : kernel) : option kernel :=
  (* initialize each thread's state *)
  k ← kn_init_loop 0 k;
  (* running thread becomes THREAD0 *)
  let k := with_cur THREAD0 0x01 k in
  (* THREAD0 is the only enabled thread *)
  let k := with_disabled (u8 (Z.lnot (kn_cur_thread_mask k))) k in
  (* no threads suspended *)
  let k := with_suspended 0x00 k in
  (* no threads delayed *)
  let k := with_sleeping 0x00 k in
  (* set the stack for THREAD0 *)
  sp ← load (kn_stack k) THREAD0;
  let k := with_io (with_SP sp (io k)) k in
  (* reset system counter *)
  let k := with_system_counter 0 k in
  let r := io k in
  Some (with_io
          (IoRegs (SP r)
             (* WGM mode 2 (clear timer on compare match) *)
             (u8 (Z.lor (TCCR0A r) 0x02))
             (* clock source = clock / 64 *)
             (u8 (Z.lor (TCCR0B r) 0x03))
             (* timer output compare *)
             250
             (* enable interrupt when OCR0A is matched *)
             (u8 (Z.lor (TIMSK0 r) 0x02))
             (* sleep mode idle, sleep disabled *)
             0) k).

(** ** The scheduler

    [kn_scheduler] and [kn_yield] are assembly routines that are not part of
    the sources at hand. *)

(** A thread is either running, or no slot is runnable and the scheduler
    waits for the next interrupt. *)
Inductive control := Running | Idling.

Definition machine : Type := kernel * control.

(** Modelled from the spec: the selection policy of the assembly routine
    [kn_scheduler]: "starting from (current + 1) mod N, scan successive slot
    ids; return the first whose bit is clear in the union of disabled,
    suspended, and sleeping". *)
Definition kn_blocked (k : kernel) : Z :=
  Z.lor (Z.lor (kn_disabled_threads k) (kn_suspended_threads k))
    (kn_sleeping_threads k).

Definition kn_candidates (k : kernel) : list Z :=
  (λ j, (kn_cur_thread k + 1 + j) mod MAX_THREADS) <$> seqZ 0 MAX_THREADS.

Definition kn_select (k : kernel) : option Z :=
  snd <$> list_find (λ i, slot_bit (kn_blocked k) i = false) (kn_candidates k).

(** Modelled from the spec: the assembly routine [kn_scheduler], the
    "scheduler-without-save": it selects the next thread, loads its saved
    stack pointer and updates the current thread id and its cached mask; if
    no slot is runnable it waits for the next interrupt and retries. *)
Definition kn_scheduler (k : kernel) : option machine :=
  match kn_select k with
  | Some n =>
      mask ← bit_to_mask n;
      sp ← load (kn_stack k) n;
      Some (with_io (with_SP sp (io k)) (with_cur n mask k), Running)
  | None => Some (k, Idling)
  end.

(** Modelled from the spec: the assembly routine [kn_yield], the
    "cooperative yield": it writes the current stack pointer into the
    caller's saved-stack-pointer slot and enters the scheduler.  The register
    file is outside this model, so the bytes pushed and popped are not
    recorded. *)
Definition kn_yield (k : kernel) : option machine :=
  stack ← store (kn_stack k) (kn_cur_thread k) (SP (io k));
  kn_scheduler (with_stack stack k).

Definition kn_create_thread_impl (t_id entry_point : Z) (suspended : bool)
    (arg : Z) (k : kernel) : option machine :=
  k ← kn_create_thread_setup t_id entry_point suspended arg k;
  if decide (t_id = kn_cur_thread k) then kn_scheduler k
  else Some (k, Running).

(** ** External functions *)

(** The [ATOMIC_BLOCK] of [kn_sleep]. *)
Definition kn_sleep_atomic (millis : Z) (k : kernel) : option kernel :=
  let t_id := kn_cur_thread k in
  mask ← bit_to_mask t_id;
  counters ← store (kn_sleep_counter k) t_id millis;
  Some (with_sleeping (u8 (Z.lor (kn_sleeping_threads k) mask))
          (with_sleep_counter counters k)).

Definition kn_sleep (millis : Z) (k : kernel) : option machine :=
  k ← kn_sleep_atomic millis k;
  kn_yield k.

(** [kn_sleep_long] touches no kernel variable itself: what it does is the
    sequence of [kn_sleep] calls it makes, given here by their arguments in
    the order of the calls. *)
Equations? kn_sleep_long (millis : Z) : list Z by wf (Z.abs_nat millis) lt :=
  kn_sleep_long millis with decide (millis ≠ 0) => {
    | right _ := [];
    | left Hnz with decide (millis > UINT16_MAX) => {
      | left Hbig := UINT16_MAX :: kn_sleep_long (u32 (millis - UINT16_MAX));
      | right _ := u16 millis :: kn_sleep_long 0 } }.
Proof.
  - unfold u32, UINT16_MAX in *.
    pose proof (Z.mod_le (millis - 65535) (2 ^ 32)).
    pose proof (Z.mod_pos_bound (millis - 65535) (2 ^ 32) eq_refl). lia.
  - lia.
Qed.

Definition kn_millis (k : kernel) : Z := kn_system_counter k.

Definition kn_thread_enabled (t_id : Z) (k : kernel) : option bool :=
  _ ← kn_assert (bool_decide (t_id < MAX_THREADS));
  mask ← bit_to_mask t_id;
  Some (Z.land (kn_disabled_threads k) mask =? 0).

Definition kn_thread_suspended (t_id : Z) (k : kernel) : option bool :=
  _ ← kn_assert (bool_decide (t_id < MAX_THREADS));
  mask ← bit_to_mask t_id;
  Some ((Z.land (kn_disabled_threads k) mask =? 0) &&
        negb (Z.land (kn_suspended_threads k) mask =? 0)).

Definition kn_thread_sleeping (t_id : Z) (k : kernel) : option bool :=
  _ ← kn_assert (bool_decide (t_id < MAX_THREADS));
  mask ← bit_to_mask t_id;
  Some ((Z.land (kn_disabled_threads k) mask =? 0) &&
        negb (Z.land (kn_sleeping_threads k) mask =? 0)).

Definition kn_disable (t_id : Z) (k : kernel) : option machine :=
  _ ← kn_assert (bool_decide (t_id < MAX_THREADS));
  mask ← bit_to_mask t_id;
  let k := with_disabled (u8 (Z.lor (kn_disabled_threads k) mask)) k in
  if decide (t_id = kn_cur_thread k) then kn_scheduler k
  else Some (k, Running).

Definition kn_resume (t_id : Z) (k : kernel) : option kernel :=
  _ ← kn_assert (bool_decide (t_id < MAX_THREADS));
  mask ← bit_to_mask t_id;
  Some (with_suspended
          (u8 (Z.land (kn_suspended_threads k) (Z.lnot mask))) k).

Definition kn_suspend (t_id : Z) (k : kernel) : option machine :=
  _ ← kn_assert (bool_decide (t_id < MAX_THREADS));
  mask ← bit_to_mask t_id;
  let k := with_suspended (u8 (Z.lor (kn_suspended_threads k) mask)) k in
  if decide (t_id = kn_cur_thread k) then kn_yield k
  else Some (k, Running).

(** ** Runs of the system

    The running thread calls the API; the timer interrupts.  While the
    scheduler waits for a runnable slot no thread runs, and each interrupt is
    followed by a new attempt to select one.  A run is a sequence of whole
    calls and whole interrupts: an interrupt in the middle of a call is not
    part of this model. *)

Inductive call :=
  | CreateThread (t_id entry_point : Z) (suspended : bool) (arg : Z)
  | Yield
  | Sleep (millis : Z)
  | Millis
  | ThreadEnabled (t_id : Z)
  | ThreadSuspended (t_id : Z)
  | ThreadSleeping (t_id : Z)
  | Disable (t_id : Z)
  | Resume (t_id : Z)
  | Suspend (t_id : Z).

Inductive event := Tick | Call (c : call).

Definition exec (c : call) (k : kernel) : option machine :=
  match c with
  | CreateThread t_id entry_point suspended arg =>
      kn_create_thread_impl t_id entry_point suspended arg k
  | Yield => kn_yield k
  | Sleep millis => kn_sleep millis k
  | Millis => Some (k, Running)
  | ThreadEnabled t_id => _ ← kn_thread_enabled t_id k; Some (k, Running)
  | ThreadSuspended t_id => _ ← kn_thread_suspended t_id k; Some (k, Running)
  | ThreadSleeping t_id => _ ← kn_thread_sleeping t_id k; Some (k, Running)
  | Disable t_id => kn_disable t_id k
  | Resume t_id => k ← kn_resume t_id k; Some (k, Running)
  | Suspend t_id => kn_suspend t_id k
  end.

Definition step (m : machine) (e : event) : option machine :=
  match e, m with
  | Tick, (k, Running) => k ← TIMER0_COMPA_vect k; Some (k, Running)
  | Tick, (k, Idling) => k ← TIMER0_COMPA_vect k; kn_scheduler k
  | Call c, (k, Running) => exec c k
  | Call c, (k, Idling) => None
  end.

Fixpoint run (m : machine) (es : list event) : option machine :=
  match es with
  | [] => Some m
  | e :: es => m ← step m e; run m es
  end.

(** [n] timer interrupts in a row. *)
Fixpoint ticks (n : nat) (m : machine) : option machine :=
  match n with
  | O => Some m
  | S n => m ← step m Tick; ticks n m
  end.

(** ** The tick interrupt, as the specification words it

    "For each slot i from 0 while the local snapshot has any bit set and
    i < N: if bit i is set, decrement that slot's sleep counter; if it reaches
    zero, clear bit i in the local."  The scan below goes through the slot
    ids it is given in that way, on bit positions instead of a walking
    mask. *)
Fixpoint tick_scan (ids : list Z) (snapshot : Z) (counters : list Z)
    : Z * list Z :=
  match ids with
  | [] => (snapshot, counters)
  | i :: ids =>
      if decide (snapshot = 0) then (snapshot, counters)
      else if Z.testbit snapshot i then
        let c := u16 (counters !!! Z.to_nat i - 1) in
        tick_scan ids
          (if decide (c = 0) then Z.clearbit snapshot i else snapshot)
          (<[Z.to_nat i := c]> counters)
      else tick_scan ids snapshot counters
  end.

Definition tick_spec (k : kernel) : kernel :=
  let r := tick_scan (seqZ 0 MAX_THREADS) (kn_sleeping_threads k)
             (kn_sleep_counter k) in
  with_sleeping r.1
    (with_sleep_counter r.2
       (with_system_counter (u32 (kn_system_counter k + 1)) k)).

(** What one tick does to a single slot: its sleeping bit and its counter. *)
Definition tick_slot (sleeping : bool) (counter : Z) : bool * Z :=
  if sleeping
  then (negb (u16 (counter - 1) =? 0), u16 (counter - 1))
  else (false, counter).

(** Invariant I3 of the specification: a slot whose sleeping bit is set has a
    positive sleep counter. *)
Definition I3 (k : kernel) : Prop :=
  ∀ i c, 0 <= i < MAX_THREADS →
    slot_bit (kn_sleeping_threads k) i = true →
    load (kn_sleep_counter k) i = Some c → 0 < c.

(** The sleeping bit and the sleep counter of slot [i]. *)
Definition sleep_state (k : kernel) (i : Z) : bool * option Z :=
  (slot_bit (kn_sleeping_threads k) i, load (kn_sleep_counter k) i).

(** Calls whose arguments meet the preconditions of the API and are within
    their C types. *)
Definition call_ok (c : call) : Prop :=
  match c with
  | CreateThread t_id entry_point _ _ =>
      0 <= t_id < MAX_THREADS ∧ entry_point ≠ 0
  | Sleep millis => 0 <= millis < 2 ^ 16
  | Yield | Millis => True
  | ThreadEnabled t_id | ThreadSuspended t_id | ThreadSleeping t_id
  | Disable t_id | Resume t_id | Suspend t_id => 0 <= t_id < MAX_THREADS
  end.

Definition event_ok (e : event) : Prop :=
  match e with Tick => True | Call c => call_ok c end.

(** The number of timer interrupts in a run. *)
Fixpoint count_ticks (es : list event) : Z :=
  match es with
  | [] => 0
  | Tick :: es => 1 + count_ticks es
  | Call _ :: es => count_ticks es
  end.

(** The sleep state of slot [i] after a call, from the state before it. *)
Definition sleep_state_after (c : call) (k : kernel) (i : Z)
    : bool * option Z :=
  match c with
  | CreateThread t_id _ _ _ =>
      if decide (i = t_id) then (false, Some 0) else sleep_state k i
  | Sleep millis =>
      if decide (i = kn_cur_thread k) then (true, Some millis)
      else sleep_state k i
  | _ => sleep_state k i
  end.

(** The thread that runs is not asleep. *)
Definition running_awake (m : machine) : Prop :=
  m.2 = Running →
  slot_bit (kn_sleeping_threads m.1) (kn_cur_thread m.1) = false.

(** The event creates a new thread in slot [t]. *)
Definition recreates (t : Z) (e : event) : Prop :=
  match e with
  | Call (CreateThread t_id _ _ _) => t_id = t
  | _ => False
  end.

(** What a call keeps of the state when it does not write the sleep state:
    the typing, the system counter and the sleep state of every slot. *)
Definition kept (k : kernel) (m : machine) : Prop :=
  kernel_typed m.1 ∧
  kn_system_counter m.1 = kn_system_counter k ∧
  kn_sleeping_threads m.1 = kn_sleeping_threads k ∧
  kn_sleep_counter m.1 = kn_sleep_counter k.

(** The sum of the chunks of a long sleep. *)
Definition total_sleep (chunks : list Z) : Z := foldr Z.add 0 chunks.

End Kernel.

(** ** A board for the examples

    Four slots with 128-byte stacks at the top of a data memory that ends at
    0x08FF, stack canaries enabled, and an initial frame of 25 bytes: the 18
    register bytes and the 7 bytes [kn_create_thread_impl] writes. *)
Definition example_config : Config := {|
  MAX_THREADS := 4;
  MAX_THREADS_range := ltac:(lia);
  kn_stack_base := [0x08FF; 0x087F; 0x07FF; 0x077F];
  INITIAL_STACK_USAGE := 25;
  KERNEL_USE_STACK_CANARY := true;
  kn_canary_loc := [0x0880; 0x0800; 0x0780; 0x0700];
  STACK_CANARY := 0xAA;
  kn_thread_bootstrap := 0x0123
|}.

(** The kernel variables before [kn_init]: all zero. *)
Definition reset : kernel :=
  Kernel 0 0 0 0 0 [0; 0; 0; 0] [0; 0; 0; 0] 0 ∅ (IoRegs 0 0 0 0 0 0).

(** The state [kn_init] leaves on this board. *)
Definition booted : kernel :=
  Kernel 0 0x01 0xFE 0 0 [0x08FF; 0x087F; 0x07FF; 0x077F] [0; 0; 0; 0] 0
    (<[0x0880 := 0xAA]> (<[0x0800 := 0xAA]> (<[0x0780 := 0xAA]>
       (<[0x0700 := 0xAA]> ∅))))
    (IoRegs 0x08FF 0x02 0x03 250 0x02 0).

(** [booted] after 2^32 - 1 ticks. *)
Definition late : kernel := with_system_counter 4294967295 booted.

(** Thread 1 runs while slot 0 sleeps for three more ticks. *)
Definition dozing : kernel :=
  with_cur 1 0x02
    (with_disabled 0xFC
       (with_sleeping 0x01
          (with_sleep_counter [3; 0; 0; 0]
             (with_system_counter 7 booted)))).

(** Thread 0 creates thread 1 and calls [kn_sleep(0)]; thread 1, which runs
    next, calls [kn_resume(1)]. *)
Definition sleep_zero_run : list event :=
  [Call (CreateThread 1 0x0200 false 0); Call (Sleep 0); Call (Resume 1)].

(** ** Reading the initial frame

    The big-endian word at [p[off]], [p[off + 1]] of data memory: the high
    byte is at the lower address, as [kn_create_thread_impl] stores the entry
    point, the argument and the bootstrap address. *)
Definition frame_word (k : kernel) (p off : Z) : option Z :=
  hi ← ram k !! u16 (p + off);
  lo ← ram k !! u16 (p + off + 1);
  Some (hi * 256 + lo).

(** ** Bit sets and arrays *)

Lemma u8_range x : 0 <= u8 x < 2 ^ 8.
Proof. apply Z.mod_pos_bound. reflexivity. Qed.

Lemma u16_range x : 0 <= u16 x < 2 ^ 16.
Proof. apply Z.mod_pos_bound. reflexivity. Qed.

Lemma u32_range x : 0 <= u32 x < 2 ^ 32.
Proof. apply Z.mod_pos_bound. reflexivity. Qed.

Lemma u8_small x : 0 <= x < 2 ^ 8 → u8 x = x.
Proof. apply Z.mod_small. Qed.

Lemma u16_small x : 0 <= x < 2 ^ 16 → u16 x = x.
Proof. apply Z.mod_small. Qed.

Lemma testbit_u8 x i : Z.testbit (u8 x) i = (i <? 8) && Z.testbit x i.
Proof. apply Z.testbit_mod_pow2. lia. Qed.

Lemma testbit_byte_high x i : 0 <= x < 2 ^ 8 → 8 <= i → Z.testbit x i = false.
Proof.
  intros Hx Hi. rewrite <- (u8_small x Hx), testbit_u8.
  destruct (Z.ltb_spec i 8); [lia | reflexivity].
Qed.

Lemma bit_to_mask_pow2 t : 0 <= t < 8 → bit_to_mask t = Some (2 ^ t).
Proof.
  intros Ht.
  assert (t = 0 ∨ t = 1 ∨ t = 2 ∨ t = 3 ∨ t = 4 ∨ t = 5 ∨ t = 6 ∨ t = 7)
    as Hcases by lia.
  repeat destruct Hcases as [-> | Hcases]; try subst t; reflexivity.
Qed.

Lemma land_pow2_eqb x t :
  0 <= t → (Z.land x (2 ^ t) =? 0) = negb (Z.testbit x t).
Proof.
  intros Ht. destruct (Z.testbit x t) eqn:Hb; simpl.
  - apply Z.eqb_neq. intros H0.
    assert (Z.testbit (Z.land x (2 ^ t)) t = true) as Hbit.
    { rewrite Z.land_spec, Hb, Z.pow2_bits_true by lia. reflexivity. }
    rewrite H0, Z.bits_0 in Hbit. discriminate.
  - apply Z.eqb_eq. apply Z.bits_inj'. intros n Hn.
    rewrite Z.land_spec, Z.bits_0, Z.pow2_bits_eqb by lia.
    destruct (Z.eqb_spec t n) as [-> | _];
      [rewrite Hb | rewrite andb_false_r]; reflexivity.
Qed.

Lemma testbit_set x t i :
  0 <= t < 8 →
  Z.testbit (u8 (Z.lor x (2 ^ t))) i = (i <? 8) && (Z.testbit x i || (t =? i)).
Proof.
  intros Ht. rewrite testbit_u8, Z.lor_spec, Z.pow2_bits_eqb by lia.
  reflexivity.
Qed.

Lemma testbit_clear x t i :
  0 <= t → 0 <= i →
  Z.testbit (u8 (Z.land x (Z.lnot (2 ^ t)))) i
  = (i <? 8) && (Z.testbit x i && negb (t =? i)).
Proof.
  intros Ht Hi.
  rewrite testbit_u8, Z.land_spec, Z.lnot_spec, Z.pow2_bits_eqb by lia.
  reflexivity.
Qed.

Lemma clear_is_clearbit x t :
  0 <= t → 0 <= x < 2 ^ 8 →
  u8 (Z.land x (Z.lnot (2 ^ t))) = Z.clearbit x t.
Proof.
  intros Ht Hx. apply Z.bits_inj'. intros i Hi.
  rewrite testbit_clear, Z.clearbit_eqb by lia.
  destruct (Z.ltb_spec i 8); [reflexivity |].
  rewrite (testbit_byte_high x i) by lia. reflexivity.
Qed.

Lemma load_Some (a : list Z) i :
  0 <= i < Z.of_nat (length a) → ∃ v, load a i = Some v.
Proof.
  intros Hi. unfold load. rewrite decide_True by lia.
  apply lookup_lt_is_Some_2. lia.
Qed.

Lemma load_total (a : list Z) i v :
  load a i = Some v → a !!! Z.to_nat i = v.
Proof.
  unfold load. destruct (decide (0 <= i)); [|discriminate].
  intros Hv. apply list_lookup_total_correct. exact Hv.
Qed.

Lemma store_Some (a : list Z) i v :
  0 <= i < Z.of_nat (length a) → store a i v = Some (<[Z.to_nat i := v]> a).
Proof. intros Hi. unfold store. rewrite decide_True by lia. reflexivity. Qed.

Lemma load_insert_eq (a : list Z) i v :
  0 <= i < Z.of_nat (length a) → load (<[Z.to_nat i := v]> a) i = Some v.
Proof.
  intros Hi. unfold load. rewrite decide_True by lia.
  apply list_lookup_insert_eq. lia.
Qed.

Lemma load_insert_ne (a : list Z) i j v :
  0 <= i → 0 <= j → i ≠ j → load (<[Z.to_nat i := v]> a) j = load a j.
Proof.
  intros Hi Hj Hne. unfold load. rewrite !decide_True by lia.
  apply list_lookup_insert_ne. lia.
Qed.

Lemma with_sleep_counter_id k : with_sleep_counter (kn_sleep_counter k) k = k.
Proof. destruct k; reflexivity. Qed.

Lemma pow2_byte t : 0 <= t < 8 → 0 <= 2 ^ t < 2 ^ 8.
Proof.
  intros Ht. split; [apply Z.pow_nonneg; lia |].
  apply Z.pow_lt_mono_r; lia.
Qed.

Lemma walking_mask t : 0 <= t < 8 → u8 (Z.shiftl (2 ^ t) 1) = u8 (2 ^ (t + 1)).
Proof.
  intros Ht. rewrite Z.shiftl_mul_pow2, <- Z.pow_add_r by lia. reflexivity.
Qed.

(** ** The tick interrupt *)

Section Tick.
Context `{Config}.

Lemma isr_loop_eq sleeping t_id mask k :
  isr_loop sleeping t_id mask k =
  if decide (sleeping ≠ 0 ∧ t_id < MAX_THREADS) then
    if decide (Z.land sleeping mask ≠ 0) then
      c ← load (kn_sleep_counter k) t_id;
      cs ← store (kn_sleep_counter k) t_id (u16 (c - 1));
      isr_loop
        (if decide (u16 (c - 1) = 0)
         then u8 (Z.land sleeping (Z.lnot mask)) else sleeping)
        (u8 (t_id + 1)) (u8 (Z.shiftl mask 1)) (with_sleep_counter cs k)
    else isr_loop sleeping (u8 (t_id + 1)) (u8 (Z.shiftl mask 1)) k
  else Some (sleeping, k).
Proof.
  etransitivity; [apply isr_loop_equation_1 |].
  destruct (decide (sleeping ≠ 0 ∧ t_id < MAX_THREADS)); [|reflexivity].
  rewrite isr_loop_clause_1_equation_1.
  destruct (decide (Z.land sleeping mask ≠ 0)); [|reflexivity].
  rewrite isr_loop_clause_1_clause_2_equation_1.
  destruct (load (kn_sleep_counter k) t_id) as [c|]; [|reflexivity].
  rewrite isr_loop_clause_1_clause_2_clause_2_equation_1.
  simpl. destruct (store (kn_sleep_counter k) t_id (u16 (c - 1)));
    reflexivity.
Qed.

(** The loop of the source and the scan of the specification agree from
    every slot id on, when the mask is the bit of that id. *)
Lemma isr_loop_scan (n : nat) : ∀ t sleeping k,
  0 <= t → t + Z.of_nat n = MAX_THREADS →
  0 <= sleeping < 2 ^ 8 →
  Z.of_nat (length (kn_sleep_counter k)) = MAX_THREADS →
  isr_loop sleeping t (u8 (2 ^ t)) k =
  let r := tick_scan (seqZ t (Z.of_nat n)) sleeping (kn_sleep_counter k) in
  Some (r.1, with_sleep_counter r.2 k).
Proof.
  pose proof MAX_THREADS_range as HN.
  induction n as [|n IH]; intros t sleeping k Ht Hn Hs Hlen;
    rewrite isr_loop_eq.
  - rewrite decide_False by lia. simpl.
    rewrite with_sleep_counter_id. reflexivity.
  - assert (seqZ t (Z.of_nat (S n)) = t :: seqZ (Z.succ t) (Z.of_nat n))
      as -> by (rewrite seqZ_cons by lia; do 2 f_equal; lia).
    simpl tick_scan.
    destruct (decide (sleeping = 0)) as [Hz | Hnz].
    { rewrite decide_False by tauto. simpl.
      rewrite with_sleep_counter_id. reflexivity. }
    rewrite decide_True by lia.
    rewrite (u8_small (2 ^ t)) by (apply pow2_byte; lia).
    assert (u8 (t + 1) = Z.succ t) as Hnext by (apply u8_small; lia).
    pose proof (land_pow2_eqb sleeping t Ht) as Hland.
    destruct (Z.testbit sleeping t) eqn:Hbit; simpl in Hland.
    + apply Z.eqb_neq in Hland. rewrite decide_True by assumption.
      destruct (load_Some (kn_sleep_counter k) t) as [c Hc]; [lia |].
      rewrite Hc. simpl. rewrite store_Some by lia. simpl.
      rewrite (load_total _ _ _ Hc).
      rewrite walking_mask, Hnext by lia.
      rewrite clear_is_clearbit by lia.
      replace (t + 1) with (Z.succ t) by lia.
      rewrite IH; simpl.
      * reflexivity.
      * lia.
      * lia.
      * destruct (decide (u16 (c - 1) = 0)); [|assumption].
        rewrite <- clear_is_clearbit by lia. apply u8_range.
      * rewrite length_insert. assumption.
    + apply Z.eqb_eq in Hland. rewrite decide_False by tauto.
      rewrite walking_mask, Hnext by lia.
      replace (t + 1) with (Z.succ t) by lia.
      apply IH; [lia | lia | assumption | assumption].
Qed.

Lemma TIMER0_COMPA_vect_spec k :
  kernel_typed k → TIMER0_COMPA_vect k = Some (tick_spec k).
Proof.
  intros Hk. unfold TIMER0_COMPA_vect, tick_spec, THREAD0.
  pose proof MAX_THREADS_range as HN.
  change 0x01 with (u8 (2 ^ 0)).
  rewrite (isr_loop_scan (Z.to_nat MAX_THREADS)); simpl.
  - rewrite Z2Nat.id by lia. reflexivity.
  - lia.
  - lia.
  - apply Hk.
  - apply Hk.
Qed.

(** What the scan does to each bit and each counter. *)
Lemma tick_scan_slots (n : nat) : ∀ t snapshot counters,
  0 <= t → t + Z.of_nat n <= Z.of_nat (length counters) →
  let r := tick_scan (seqZ t (Z.of_nat n)) snapshot counters in
  length r.2 = length counters ∧
  ∀ i, 0 <= i →
    Z.testbit r.1 i =
      (if decide (t <= i < t + Z.of_nat n)
       then (tick_slot (Z.testbit snapshot i) (counters !!! Z.to_nat i)).1
       else Z.testbit snapshot i) ∧
    r.2 !!! Z.to_nat i =
      (if decide (t <= i < t + Z.of_nat n)
       then (tick_slot (Z.testbit snapshot i) (counters !!! Z.to_nat i)).2
       else counters !!! Z.to_nat i).
Proof.
  induction n as [|n IH]; intros t snapshot counters Ht Hlen.
  - simpl. split; [reflexivity |]. intros i Hi.
    rewrite !decide_False by lia. split; reflexivity.
  - assert (seqZ t (Z.of_nat (S n)) = t :: seqZ (Z.succ t) (Z.of_nat n))
      as -> by (rewrite seqZ_cons by lia; do 2 f_equal; lia).
    simpl tick_scan.
    destruct (decide (snapshot = 0)) as [-> | Hnz].
    { simpl. split; [reflexivity |]. intros i Hi. rewrite Z.bits_0.
      destruct (decide _); split; reflexivity. }
    destruct (Z.testbit snapshot t) eqn:Hbit.
    + set (c := u16 (counters !!! Z.to_nat t - 1)).
      set (s1 := if decide (c = 0) then Z.clearbit snapshot t else snapshot).
      destruct (IH (Z.succ t) s1 (<[Z.to_nat t := c]> counters))
        as [IHlen IHi]; [lia | rewrite length_insert; lia |].
      simpl in IHlen, IHi |- *. rewrite length_insert in IHlen.
      split; [assumption |]. intros i Hi.
      destruct (IHi i Hi) as [IHb IHc]. rewrite IHb, IHc.
      destruct (decide (i = t)) as [-> | Hne].
      * repeat case_decide; try lia.
        rewrite Hbit. unfold tick_slot. fold c. simpl.
        rewrite list_lookup_total_insert_eq by lia.
        split; [|reflexivity]. subst s1.
        destruct (decide (c = 0)) as [Hc | Hc].
        -- rewrite Z.clearbit_eq. symmetry. apply negb_false_iff.
           apply Z.eqb_eq. assumption.
        -- rewrite Hbit. symmetry. apply negb_true_iff.
           apply Z.eqb_neq. assumption.
      * assert (Z.testbit s1 i = Z.testbit snapshot i) as ->.
        { subst s1. destruct (decide (c = 0)); [|reflexivity].
          apply Z.clearbit_neq. congruence. }
        rewrite list_lookup_total_insert_ne by lia.
        repeat case_decide; try lia; split; reflexivity.
    + destruct (IH (Z.succ t) snapshot counters) as [IHlen IHi]; [lia | lia |].
      simpl in IHlen, IHi |- *.
      split; [assumption |]. intros i Hi.
      destruct (IHi i Hi) as [IHb IHc]. rewrite IHb, IHc.
      destruct (decide (i = t)) as [-> | Hne].
      * repeat case_decide; try lia.
        rewrite Hbit. split; reflexivity.
      * repeat case_decide; try lia; split; reflexivity.
Qed.

Lemma tick_scan_typed ids : ∀ snapshot counters,
  0 <= snapshot < 2 ^ 8 →
  Forall (λ i, 0 <= i) ids →
  Forall (λ c, 0 <= c < 2 ^ 16) counters →
  let r := tick_scan ids snapshot counters in
  0 <= r.1 < 2 ^ 8 ∧ Forall (λ c, 0 <= c < 2 ^ 16) r.2.
Proof.
  induction ids as [|i ids IH]; intros snapshot counters Hs Hids Hcs; simpl.
  - split; assumption.
  - inversion Hids as [|? ? Hi Hids']; subst.
    destruct (decide (snapshot = 0)); [split; assumption |].
    destruct (Z.testbit snapshot i); [|apply IH; assumption].
    apply IH; [|assumption|].
    + destruct (decide _); [|assumption].
      rewrite <- clear_is_clearbit by lia. apply u8_range.
    + apply Forall_insert; [assumption | apply u16_range].
Qed.

Lemma tick_spec_typed k : kernel_typed k → kernel_typed (tick_spec k).
Proof.
  intros [? ? ? ? ? ? ? ?]. pose proof MAX_THREADS_range.
  destruct (tick_scan_slots (Z.to_nat MAX_THREADS) 0 (kn_sleeping_threads k)
              (kn_sleep_counter k)) as [Hlen _]; [lia | lia |].
  rewrite Z2Nat.id in Hlen by lia.
  destruct (tick_scan_typed (seqZ 0 MAX_THREADS) (kn_sleeping_threads k)
              (kn_sleep_counter k)) as [Hs Hc]; [assumption | | assumption |].
  { apply Forall_forall. intros i Hi. apply elem_of_seqZ in Hi. lia. }
  split; simpl; try assumption.
  - simpl in Hlen. rewrite Hlen. assumption.
  - apply u32_range.
Qed.

(** One tick, slot by slot. *)
Lemma tick_spec_slot k i c :
  kernel_typed k → 0 <= i < MAX_THREADS →
  load (kn_sleep_counter k) i = Some c →
  slot_bit (kn_sleeping_threads (tick_spec k)) i
    = (tick_slot (slot_bit (kn_sleeping_threads k) i) c).1 ∧
  load (kn_sleep_counter (tick_spec k)) i
    = Some (tick_slot (slot_bit (kn_sleeping_threads k) i) c).2.
Proof.
  intros Hk Hi Hc. pose proof MAX_THREADS_range.
  destruct (tick_scan_slots (Z.to_nat MAX_THREADS) 0 (kn_sleeping_threads k)
              (kn_sleep_counter k)) as [Hlen Hslots];
    [lia | rewrite (typed_counter_len k Hk); lia |].
  destruct (Hslots i) as [Hb Hcnt]; [lia |].
  rewrite Z2Nat.id in Hlen, Hb, Hcnt by lia.
  destruct (decide (0 <= i < 0 + MAX_THREADS)); [|lia].
  rewrite (load_total _ _ _ Hc) in Hb, Hcnt.
  unfold tick_spec, slot_bit. simpl. split; [exact Hb |].
  rewrite <- Hcnt. unfold load. rewrite decide_True by lia.
  apply list_lookup_lookup_total_lt. simpl in Hlen. rewrite Hlen.
  pose proof (typed_counter_len k Hk). lia.
Qed.

(** Bits of the sleeping set beyond the last slot are not touched. *)
Lemma tick_spec_high_bits k i :
  kernel_typed k → MAX_THREADS <= i →
  slot_bit (kn_sleeping_threads (tick_spec k)) i
    = slot_bit (kn_sleeping_threads k) i.
Proof.
  intros Hk Hi. pose proof MAX_THREADS_range.
  destruct (tick_scan_slots (Z.to_nat MAX_THREADS) 0 (kn_sleeping_threads k)
              (kn_sleep_counter k)) as [_ Hslots];
    [lia | rewrite (typed_counter_len k Hk); lia |].
  destruct (Hslots i) as [Hb _]; [lia |].
  rewrite Z2Nat.id in Hb by lia.
  destruct (decide (0 <= i < 0 + MAX_THREADS)); [lia |]. exact Hb.
Qed.

End Tick.

(** ** The scheduler *)

Section Scheduler.
Context `{Config}.

Lemma kn_select_Some k n :
  kn_select k = Some n →
  0 <= n < MAX_THREADS ∧ slot_bit (kn_blocked k) n = false.
Proof.
  unfold kn_select. intros Hsel. pose proof MAX_THREADS_range.
  destruct (list_find _ _) as [[j x]|] eqn:Hfind; [|discriminate].
  simpl in Hsel. injection Hsel as ->.
  apply list_find_Some in Hfind as (Hj & Hfree & _).
  split; [|exact Hfree].
  unfold kn_candidates in Hj. rewrite list_lookup_fmap in Hj.
  destruct (seqZ 0 MAX_THREADS !! j) as [y|]; [|discriminate].
  simpl in Hj. injection Hj as <-. apply Z.mod_pos_bound. lia.
Qed.

(** A slot with one of its three bits set is never selected. *)
Lemma kn_select_not_sleeping k n :
  0 <= n → slot_bit (kn_sleeping_threads k) n = true → kn_select k ≠ Some n.
Proof.
  intros Hn Hbit Hsel. apply kn_select_Some in Hsel as [_ Hfree].
  unfold kn_blocked, slot_bit in *. rewrite Z.lor_spec, Hbit in Hfree.
  rewrite orb_true_r in Hfree. discriminate.
Qed.

Lemma kn_scheduler_effect k m :
  kn_scheduler k = Some m →
  ∃ t mask sp,
    m.1 = with_io (with_SP sp (io k)) (with_cur t mask k) ∨ m.1 = k.
Proof.
  unfold kn_scheduler. intros Hm.
  destruct (kn_select k) as [n|].
  - destruct (bit_to_mask n) as [mask|]; [|discriminate]. simpl in Hm.
    destruct (load (kn_stack k) n) as [sp|]; [|discriminate].
    injection Hm as <-. exists n, mask, sp. left. reflexivity.
  - injection Hm as <-. exists 0, 0, 0. right. reflexivity.
Qed.

(** The scheduler only switches threads: it writes the current thread id,
    its mask and the stack pointer. *)
Lemma kn_scheduler_frame k m :
  kn_scheduler k = Some m →
  kn_disabled_threads m.1 = kn_disabled_threads k ∧
  kn_suspended_threads m.1 = kn_suspended_threads k ∧
  kn_sleeping_threads m.1 = kn_sleeping_threads k ∧
  kn_sleep_counter m.1 = kn_sleep_counter k ∧
  kn_stack m.1 = kn_stack k ∧
  kn_system_counter m.1 = kn_system_counter k ∧
  ram m.1 = ram k.
Proof.
  intros Hm. apply kn_scheduler_effect in Hm as (t & mask & sp & [-> | ->]);
    repeat split; reflexivity.
Qed.

Lemma kn_scheduler_total k :
  Z.of_nat (length (kn_stack k)) = MAX_THREADS →
  ∃ m, kn_scheduler k = Some m.
Proof.
  intros Hlen. unfold kn_scheduler. pose proof MAX_THREADS_range.
  destruct (kn_select k) as [n|] eqn:Hsel; [|eauto].
  apply kn_select_Some in Hsel as [Hn _].
  rewrite bit_to_mask_pow2 by lia. simpl.
  destruct (load_Some (kn_stack k) n) as [sp ->]; [lia |]. simpl. eauto.
Qed.

Lemma kn_scheduler_typed k m :
  kernel_typed k → kn_scheduler k = Some m → kernel_typed m.1.
Proof.
  intros Hk Hm. pose proof MAX_THREADS_range. unfold kn_scheduler in Hm.
  destruct (kn_select k) as [n|] eqn:Hsel.
  - apply kn_select_Some in Hsel as [Hn _].
    destruct (bit_to_mask n) as [mask|]; [|discriminate]. simpl in Hm.
    destruct (load (kn_stack k) n) as [sp|]; [|discriminate].
    injection Hm as <-. destruct Hk. split; simpl; assumption.
  - injection Hm as <-. exact Hk.
Qed.

End Scheduler.

(** ** The thread API *)

Lemma set_bit_twice x m : u8 (Z.lor (u8 (Z.lor x m)) m) = u8 (Z.lor x m).
Proof.
  apply Z.bits_inj'. intros i Hi.
  rewrite !testbit_u8, !Z.lor_spec, testbit_u8, Z.lor_spec.
  destruct (i <? 8), (Z.testbit x i), (Z.testbit m i); reflexivity.
Qed.

Lemma clear_unset_bit x t :
  0 <= t → 0 <= x < 2 ^ 8 → Z.testbit x t = false →
  u8 (Z.land x (Z.lnot (2 ^ t))) = x.
Proof.
  intros Ht Hx Hbit. apply Z.bits_inj'. intros i Hi.
  rewrite testbit_clear by lia.
  destruct (Z.eqb_spec t i) as [<- | Hne].
  - rewrite Hbit, andb_false_r. reflexivity.
  - destruct (Z.ltb_spec i 8); simpl; [apply andb_true_r |].
    symmetry. apply testbit_byte_high; lia.
Qed.

Lemma with_suspended_id k : with_suspended (kn_suspended_threads k) k = k.
Proof. destruct k; reflexivity. Qed.

Section Api.
Context `{Config}.

Lemma slot_mask t : 0 <= t < MAX_THREADS → bit_to_mask t = Some (2 ^ t).
Proof.
  intros Ht. pose proof MAX_THREADS_range. apply bit_to_mask_pow2. lia.
Qed.

Lemma assert_slot t :
  t < MAX_THREADS → kn_assert (bool_decide (t < MAX_THREADS)) = Some ().
Proof. intros Ht. rewrite bool_decide_eq_true_2 by assumption. reflexivity. Qed.

Lemma kn_resume_eq t k :
  0 <= t < MAX_THREADS →
  kn_resume t k =
  Some (with_suspended
          (u8 (Z.land (kn_suspended_threads k) (Z.lnot (2 ^ t)))) k).
Proof.
  intros Ht. unfold kn_resume.
  rewrite assert_slot, slot_mask by lia. reflexivity.
Qed.

Lemma kn_suspend_other t k :
  0 <= t < MAX_THREADS → t ≠ kn_cur_thread k →
  kn_suspend t k =
  Some (with_suspended (u8 (Z.lor (kn_suspended_threads k) (2 ^ t))) k,
        Running).
Proof.
  intros Ht Hcur. unfold kn_suspend.
  rewrite assert_slot, slot_mask by lia. simpl.
  rewrite decide_False by assumption. reflexivity.
Qed.

Lemma kn_disable_other t k :
  0 <= t < MAX_THREADS → t ≠ kn_cur_thread k →
  kn_disable t k =
  Some (with_disabled (u8 (Z.lor (kn_disabled_threads k) (2 ^ t))) k,
        Running).
Proof.
  intros Ht Hcur. unfold kn_disable.
  rewrite assert_slot, slot_mask by lia. simpl.
  rewrite decide_False by assumption. reflexivity.
Qed.

(** C7.  For a slot other than the current thread, a second [kn_suspend]
    leaves the kernel state of the first unchanged, and so does a second
    [kn_disable]; [kn_resume] of a slot whose suspended bit is clear changes
    nothing at all, and [kn_resume] never changes the disabled set. *)
Theorem suspend_disable_idempotent_resume_noop k t :
  kernel_typed k → 0 <= t < MAX_THREADS →
  (t ≠ kn_cur_thread k →
     (∃ k1, kn_suspend t k = Some (k1, Running) ∧
            kn_suspend t k1 = Some (k1, Running)) ∧
     (∃ k1, kn_disable t k = Some (k1, Running) ∧
            kn_disable t k1 = Some (k1, Running))) ∧
  (slot_bit (kn_suspended_threads k) t = false → kn_resume t k = Some k) ∧
  (∃ k1, kn_resume t k = Some k1 ∧
         kn_disabled_threads k1 = kn_disabled_threads k).
Proof.
  intros Hk Ht. split; [|split].
  - intros Hcur. split.
    + eexists. split; [apply kn_suspend_other; assumption |].
      rewrite kn_suspend_other by assumption. simpl.
      rewrite set_bit_twice. reflexivity.
    + eexists. split; [apply kn_disable_other; assumption |].
      rewrite kn_disable_other by assumption. simpl.
      rewrite set_bit_twice. reflexivity.
  - intros Hbit. rewrite kn_resume_eq by assumption.
    rewrite clear_unset_bit; [| lia | apply Hk | exact Hbit].
    rewrite with_suspended_id. reflexivity.
  - eexists. split; [apply kn_resume_eq; assumption | reflexivity].
Qed.

Lemma kn_thread_enabled_eq t k :
  0 <= t < MAX_THREADS →
  kn_thread_enabled t k = Some (negb (slot_bit (kn_disabled_threads k) t)).
Proof.
  intros Ht. unfold kn_thread_enabled.
  rewrite assert_slot, slot_mask by lia. simpl.
  rewrite land_pow2_eqb by lia. reflexivity.
Qed.

Lemma kn_thread_suspended_eq t k :
  0 <= t < MAX_THREADS →
  kn_thread_suspended t k =
    Some (negb (slot_bit (kn_disabled_threads k) t) &&
          slot_bit (kn_suspended_threads k) t).
Proof.
  intros Ht. unfold kn_thread_suspended.
  rewrite assert_slot, slot_mask by lia. simpl.
  rewrite !land_pow2_eqb, negb_involutive by lia. reflexivity.
Qed.

Lemma kn_thread_sleeping_eq t k :
  0 <= t < MAX_THREADS →
  kn_thread_sleeping t k =
    Some (negb (slot_bit (kn_disabled_threads k) t) &&
          slot_bit (kn_sleeping_threads k) t).
Proof.
  intros Ht. unfold kn_thread_sleeping.
  rewrite assert_slot, slot_mask by lia. simpl.
  rewrite !land_pow2_eqb, negb_involutive by lia. reflexivity.
Qed.

(** C8.  [kn_thread_enabled] is true iff the disabled bit is clear,
    [kn_thread_suspended] iff the disabled bit is clear and the suspended bit
    set, [kn_thread_sleeping] iff the disabled bit is clear and the sleeping
    bit set; on a disabled slot all three are false. *)
Theorem thread_predicates k t :
  0 <= t < MAX_THREADS →
  kn_thread_enabled t k = Some (negb (slot_bit (kn_disabled_threads k) t)) ∧
  kn_thread_suspended t k =
    Some (negb (slot_bit (kn_disabled_threads k) t) &&
          slot_bit (kn_suspended_threads k) t) ∧
  kn_thread_sleeping t k =
    Some (negb (slot_bit (kn_disabled_threads k) t) &&
          slot_bit (kn_sleeping_threads k) t) ∧
  (slot_bit (kn_disabled_threads k) t = true →
     kn_thread_enabled t k = Some false ∧
     kn_thread_suspended t k = Some false ∧
     kn_thread_sleeping t k = Some false).
Proof.
  intros Ht.
  rewrite kn_thread_enabled_eq, kn_thread_suspended_eq, kn_thread_sleeping_eq
    by assumption.
  split; [reflexivity | split; [reflexivity | split; [reflexivity |]]].
  intros ->. auto.
Qed.

(** What [kn_create_thread_impl] writes before it looks at the current
    thread: the kernel variables of the new state, field by field. *)
Lemma kn_create_thread_setup_fields t entry suspended arg k base :
  kernel_typed k → 0 <= t < MAX_THREADS → entry ≠ 0 →
  load kn_stack_base t = Some base →
  ∃ k',
    kn_create_thread_setup t entry suspended arg k = Some k' ∧
    kn_cur_thread k' = kn_cur_thread k ∧
    kn_disabled_threads k'
      = u8 (Z.land (kn_disabled_threads k) (Z.lnot (2 ^ t))) ∧
    kn_sleeping_threads k'
      = u8 (Z.land (kn_sleeping_threads k) (Z.lnot (2 ^ t))) ∧
    kn_suspended_threads k'
      = (if suspended
         then u8 (Z.lor (kn_suspended_threads k) (2 ^ t))
         else u8 (Z.land (kn_suspended_threads k) (Z.lnot (2 ^ t)))) ∧
    kn_sleep_counter k' = <[Z.to_nat t := 0]> (kn_sleep_counter k) ∧
    kn_stack k'
      = <[Z.to_nat t := u16 (base - INITIAL_STACK_USAGE)]> (kn_stack k) ∧
    kn_system_counter k' = kn_system_counter k.
Proof.
  intros Hk Ht Hentry Hbase. unfold kn_create_thread_setup.
  pose proof (typed_stack_len k Hk). pose proof (typed_counter_len k Hk).
  rewrite assert_slot by lia. simpl.
  rewrite bool_decide_eq_true_2 by assumption. simpl.
  rewrite Hbase. simpl.
  rewrite store_Some by lia. simpl.
  rewrite slot_mask by lia. simpl.
  rewrite store_Some by lia. simpl.
  eexists. split; [reflexivity |]. simpl. repeat split; reflexivity.
Qed.

(** C2.  After [kn_create_thread_impl] for a slot other than the current
    thread, with a non-null entry point: the slot's disabled and sleeping
    bits are clear, its suspended bit is the [suspended] argument, its sleep
    counter is 0 and its saved stack pointer is the slot's stack base minus
    [INITIAL_STACK_USAGE], which lies in [base - INITIAL_STACK_USAGE, base).
    The stack base is an address of the 16-bit data space with room for the
    initial frame below it. *)
Theorem create_thread_postcondition k t entry suspended arg base :
  kernel_typed k → 0 <= t < MAX_THREADS → t ≠ kn_cur_thread k →
  entry ≠ 0 →
  load kn_stack_base t = Some base →
  0 < INITIAL_STACK_USAGE <= base → base < 2 ^ 16 →
  ∃ k',
    kn_create_thread_impl t entry suspended arg k = Some (k', Running) ∧
    slot_bit (kn_disabled_threads k') t = false ∧
    slot_bit (kn_sleeping_threads k') t = false ∧
    slot_bit (kn_suspended_threads k') t = suspended ∧
    load (kn_sleep_counter k') t = Some 0 ∧
    ∃ sp,
      load (kn_stack k') t = Some sp ∧
      sp = base - INITIAL_STACK_USAGE ∧
      base - INITIAL_STACK_USAGE <= sp < base.
Proof.
  intros Hk Ht Hcur Hentry Hbase Husage Hb. pose proof MAX_THREADS_range.
  destruct (kn_create_thread_setup_fields t entry suspended arg k base)
    as (k' & Hsetup & Hc & Hd & Hz & Hs & Hcnt & Hst & _); try assumption.
  exists k'. unfold kn_create_thread_impl. rewrite Hsetup. simpl.
  rewrite decide_False by congruence.
  unfold slot_bit. rewrite Hd, Hz, Hs, Hcnt, Hst.
  rewrite !testbit_clear, Z.eqb_refl, !andb_false_r by lia.
  split; [reflexivity |]. split; [reflexivity |]. split; [reflexivity |].
  split.
  { destruct suspended; [|rewrite testbit_clear by lia].
    - rewrite testbit_set, Z.eqb_refl, orb_true_r by lia.
      destruct (Z.ltb_spec t 8); [reflexivity | lia].
    - rewrite Z.eqb_refl, !andb_false_r. reflexivity. }
  split.
  { apply load_insert_eq. rewrite (typed_counter_len k Hk). lia. }
  exists (base - INITIAL_STACK_USAGE). split; [|lia].
  rewrite load_insert_eq by (rewrite (typed_stack_len k Hk); lia).
  rewrite u16_small by lia. reflexivity.
Qed.

End Api.

(** ** The tick interrupt against its specification *)

Section TickClaims.
Context `{Config}.

(** C4.  One run of the tick ISR adds one to the 32-bit system counter and
    then does what the scan of the specification does: for every slot whose
    bit is set in the snapshot of the sleeping set the sleep counter is
    decremented, the bit is cleared exactly when the decremented counter is
    zero, every other slot keeps its counter and its clear bit, and the
    snapshot is written back as the new sleeping set. *)
Theorem tick_isr_follows_spec k :
  kernel_typed k →
  ∃ k',
    TIMER0_COMPA_vect k = Some k' ∧ k' = tick_spec k ∧
    kn_system_counter k' = u32 (kn_system_counter k + 1) ∧
    ∀ i c, 0 <= i < MAX_THREADS → load (kn_sleep_counter k) i = Some c →
      (slot_bit (kn_sleeping_threads k) i = true →
         load (kn_sleep_counter k') i = Some (u16 (c - 1)) ∧
         (slot_bit (kn_sleeping_threads k') i = false ↔ u16 (c - 1) = 0)) ∧
      (slot_bit (kn_sleeping_threads k) i = false →
         load (kn_sleep_counter k') i = Some c ∧
         slot_bit (kn_sleeping_threads k') i = false).
Proof.
  intros Hk. exists (tick_spec k).
  split; [apply TIMER0_COMPA_vect_spec; assumption |].
  split; [reflexivity |]. split; [reflexivity |].
  intros i c Hi Hc.
  destruct (tick_spec_slot k i c Hk Hi Hc) as [Hb Hcnt].
  split; intros Hbit; rewrite Hbit in Hb, Hcnt;
    cbn [tick_slot fst snd] in Hb, Hcnt.
  - split; [exact Hcnt |]. rewrite Hb, negb_false_iff. apply Z.eqb_eq.
  - split; assumption.
Qed.

(** C5.  The tick ISR leaves the disabled set, the suspended set, the current
    thread id, its cached mask and every saved stack pointer as they were;
    data memory and the I/O registers are not written either. *)
Theorem tick_isr_frame k :
  kernel_typed k →
  ∃ k',
    TIMER0_COMPA_vect k = Some k' ∧
    kn_disabled_threads k' = kn_disabled_threads k ∧
    kn_suspended_threads k' = kn_suspended_threads k ∧
    kn_cur_thread k' = kn_cur_thread k ∧
    kn_cur_thread_mask k' = kn_cur_thread_mask k ∧
    kn_stack k' = kn_stack k ∧
    ram k' = ram k ∧ io k' = io k.
Proof.
  intros Hk. exists (tick_spec k).
  split; [apply TIMER0_COMPA_vect_spec; assumption |].
  repeat split; reflexivity.
Qed.

End TickClaims.

(** ** Initialisation *)

Section Init.
Context `{Config}.

Lemma kn_init_loop_eq i k :
  kn_init_loop i k =
  if decide (i < MAX_THREADS)
  then k' ← kn_init_slot i k; kn_init_loop (u8 (i + 1)) k'
  else Some k.
Proof.
  etransitivity; [apply kn_init_loop_equation_1 |].
  destruct (decide (i < MAX_THREADS)); [|reflexivity].
  rewrite kn_init_loop_clause_1_equation_1.
  destruct (kn_init_slot i k); reflexivity.
Qed.

Lemma kn_init_slot_fields i k base :
  tables_ok → 0 <= i < MAX_THREADS →
  Z.of_nat (length (kn_stack k)) = MAX_THREADS →
  Z.of_nat (length (kn_sleep_counter k)) = MAX_THREADS →
  load kn_stack_base i = Some base →
  ∃ k',
    kn_init_slot i k = Some k' ∧
    kn_stack k' = <[Z.to_nat i := base]> (kn_stack k) ∧
    kn_sleep_counter k' = <[Z.to_nat i := 0]> (kn_sleep_counter k) ∧
    io k' = io k.
Proof.
  intros [Hbases Hcanaries] Hi Hst Hcnt Hbase. unfold kn_init_slot.
  rewrite Hbase. simpl. rewrite !store_Some by lia. simpl.
  destruct KERNEL_USE_STACK_CANARY.
  - destruct (load_Some kn_canary_loc i) as [canary ->];
      [rewrite Hcanaries by reflexivity; lia |].
    simpl. eexists. repeat split; reflexivity.
  - eexists. repeat split; reflexivity.
Qed.

(** After the loop has gone from slot [i] to the last one, each of these
    slots has its stack base as saved stack pointer and a zero counter; the
    slots before [i] are as they were. *)
Lemma kn_init_loop_fields (n : nat) : ∀ i k,
  tables_ok → 0 <= i → i + Z.of_nat n = MAX_THREADS →
  Z.of_nat (length (kn_stack k)) = MAX_THREADS →
  Z.of_nat (length (kn_sleep_counter k)) = MAX_THREADS →
  ∃ k',
    kn_init_loop i k = Some k' ∧
    Z.of_nat (length (kn_stack k')) = MAX_THREADS ∧
    Z.of_nat (length (kn_sleep_counter k')) = MAX_THREADS ∧
    io k' = io k ∧
    ∀ j, 0 <= j < MAX_THREADS →
      load (kn_stack k') j
        = (if decide (i <= j) then load kn_stack_base j
           else load (kn_stack k) j) ∧
      load (kn_sleep_counter k') j
        = (if decide (i <= j) then Some 0
           else load (kn_sleep_counter k) j).
Proof.
  pose proof MAX_THREADS_range.
  induction n as [|n IH]; intros i k Htab Hi Hn Hst Hcnt;
    rewrite kn_init_loop_eq.
  - rewrite decide_False by lia. exists k.
    repeat split; try assumption; rewrite decide_False by lia; reflexivity.
  - rewrite decide_True by lia.
    destruct (load_Some kn_stack_base i) as [base Hbase];
      [destruct Htab as [-> _]; lia |].
    destruct (kn_init_slot_fields i k base) as (k1 & -> & Hst1 & Hcnt1 & Hio1);
      try assumption; [lia |].
    simpl. rewrite (u8_small (i + 1)) by lia.
    destruct (IH (i + 1) k1) as (k' & -> & Hst' & Hcnt' & Hio' & Hslots);
      try assumption; try lia.
    { rewrite Hst1, length_insert. assumption. }
    { rewrite Hcnt1, length_insert. assumption. }
    exists k'. split; [reflexivity |]. split; [assumption |].
    split; [assumption |]. split; [congruence |].
    intros j Hj. destruct (Hslots j Hj) as [-> ->]. rewrite Hst1, Hcnt1.
    destruct (decide (j = i)) as [-> | Hne].
    + rewrite !load_insert_eq by lia.
      repeat case_decide; try lia. split; [congruence | reflexivity].
    + rewrite !load_insert_ne by lia.
      repeat case_decide; try lia; split; reflexivity.
Qed.

(** C9.  After [kn_init] the current thread is 0 with mask 0x01, the disabled
    set is 0xFE (every bit but bit 0), the suspended and sleeping sets are
    empty, every slot has a zero sleep counter and its stack base as saved
    stack pointer, and the system counter is 0. *)
Theorem kn_init_postcondition k :
  tables_ok →
  Z.of_nat (length (kn_stack k)) = MAX_THREADS →
  Z.of_nat (length (kn_sleep_counter k)) = MAX_THREADS →
  ∃ k',
    kn_init k = Some k' ∧
    kn_cur_thread k' = 0 ∧ kn_cur_thread_mask k' = 0x01 ∧
    kn_disabled_threads k' = 0xFE ∧
    (∀ i, 0 <= i < 8 →
       slot_bit (kn_disabled_threads k') i = negb (i =? 0)) ∧
    kn_suspended_threads k' = 0 ∧ kn_sleeping_threads k' = 0 ∧
    (∀ i, 0 <= i < MAX_THREADS →
       load (kn_sleep_counter k') i = Some 0 ∧
       ∃ base, load kn_stack_base i = Some base ∧
               load (kn_stack k') i = Some base) ∧
    kn_system_counter k' = 0.
Proof.
  intros Htab Hst Hcnt. pose proof MAX_THREADS_range.
  destruct (kn_init_loop_fields (Z.to_nat MAX_THREADS) 0 k)
    as (k1 & Hloop & Hst1 & Hcnt1 & _ & Hslots); try assumption; try lia.
  unfold kn_init. rewrite Hloop. simpl.
  destruct (load_Some (kn_stack k1) THREAD0) as [sp ->];
    [unfold THREAD0; lia |].
  simpl. eexists. split; [reflexivity |]. simpl.
  split; [reflexivity |]. split; [reflexivity |]. split; [reflexivity |].
  split.
  { intros i Hi.
    assert (i = 0 ∨ i = 1 ∨ i = 2 ∨ i = 3 ∨ i = 4 ∨ i = 5 ∨ i = 6 ∨ i = 7)
      as Hcases by lia.
    repeat destruct Hcases as [-> | Hcases]; try subst i; reflexivity. }
  split; [reflexivity |]. split; [reflexivity |]. split; [|reflexivity].
  intros i Hi. destruct (Hslots i Hi) as [Hs Hc].
  rewrite decide_True in Hs, Hc by lia. split; [exact Hc |].
  destruct (load_Some kn_stack_base i) as [base Hbase];
    [destruct Htab as [-> _]; lia |].
  exists base. split; [exact Hbase | congruence].
Qed.

End Init.

(** ** Long sleeps *)

Lemma kn_sleep_long_eq millis :
  kn_sleep_long millis =
  if decide (millis ≠ 0) then
    if decide (millis > UINT16_MAX)
    then UINT16_MAX :: kn_sleep_long (u32 (millis - UINT16_MAX))
    else u16 millis :: kn_sleep_long 0
  else [].
Proof.
  etransitivity; [apply kn_sleep_long_equation_1 |].
  destruct (decide (millis ≠ 0)); [|reflexivity].
  rewrite kn_sleep_long_clause_1_equation_1.
  destruct (decide (millis > UINT16_MAX)); reflexivity.
Qed.

Lemma kn_sleep_long_0 : kn_sleep_long 0 = [].
Proof. rewrite kn_sleep_long_eq. reflexivity. Qed.

(** C3.  For a 32-bit duration the chunks [kn_sleep_long] passes to
    [kn_sleep] add up to the duration exactly, each chunk is nonzero and at
    most 65535, and a zero duration makes no call at all. *)
Theorem sleep_long_chunks ms32 :
  0 <= ms32 < 2 ^ 32 →
  total_sleep (kn_sleep_long ms32) = ms32 ∧
  Forall (λ c, 0 < c <= 65535) (kn_sleep_long ms32) ∧
  (ms32 = 0 → kn_sleep_long ms32 = []).
Proof.
  intros Hms. split; [|split].
  - induction ms32 as [ms IH] using (well_founded_induction (Z.lt_wf 0)).
    rewrite kn_sleep_long_eq.
    destruct (decide (ms ≠ 0)) as [Hnz | Hz]; [|simpl; lia].
    unfold UINT16_MAX. destruct (decide (ms > 65535)) as [Hbig | Hsmall].
    + unfold u32. rewrite Z.mod_small by lia. simpl.
      rewrite IH by lia. lia.
    + rewrite kn_sleep_long_0, u16_small by lia. simpl. lia.
  - induction ms32 as [ms IH] using (well_founded_induction (Z.lt_wf 0)).
    rewrite kn_sleep_long_eq.
    destruct (decide (ms ≠ 0)) as [Hnz | Hz]; [|constructor].
    unfold UINT16_MAX. destruct (decide (ms > 65535)) as [Hbig | Hsmall].
    + unfold u32. rewrite Z.mod_small by lia.
      constructor; [lia | apply IH; lia].
    + rewrite kn_sleep_long_0, u16_small by lia.
      constructor; [lia | constructor].
  - intros ->. apply kn_sleep_long_0.
Qed.

(** ** Runs: what every call and every tick keeps *)

Section Runs.
Context `{Config}.

Lemma testbit_clear_other x t i :
  0 <= t → 0 <= i < 8 → i ≠ t →
  Z.testbit (u8 (Z.land x (Z.lnot (2 ^ t)))) i = Z.testbit x i.
Proof.
  intros Ht Hi Hne. rewrite testbit_clear by lia.
  destruct (Z.ltb_spec i 8); [|lia]. destruct (Z.eqb_spec t i); [lia |].
  simpl. apply andb_true_r.
Qed.

Lemma testbit_set_other x t i :
  0 <= t < 8 → 0 <= i < 8 → i ≠ t →
  Z.testbit (u8 (Z.lor x (2 ^ t))) i = Z.testbit x i.
Proof.
  intros Ht Hi Hne. rewrite testbit_set by lia.
  destruct (Z.ltb_spec i 8); [|lia]. destruct (Z.eqb_spec t i); [lia |].
  simpl. apply orb_false_r.
Qed.

Lemma kn_scheduler_kept k :
  kernel_typed k → ∃ m, kn_scheduler k = Some m ∧ kept k m.
Proof.
  intros Hk. destruct (kn_scheduler_total k) as [m Hm]; [apply Hk |].
  exists m. split; [exact Hm |].
  destruct (kn_scheduler_frame k m Hm) as (_ & _ & Hs & Hc & _ & Ht & _).
  split; [eapply kn_scheduler_typed; eassumption |]. auto.
Qed.

Lemma kn_yield_kept k :
  kernel_typed k → ∃ m, kn_yield k = Some m ∧ kept k m.
Proof.
  intros Hk. unfold kn_yield.
  pose proof (typed_cur k Hk). pose proof (typed_stack_len k Hk).
  rewrite store_Some by lia. simpl.
  apply (kn_scheduler_kept (with_stack _ k)).
  destruct Hk. split; simpl; try assumption.
  rewrite length_insert. assumption.
Qed.

Lemma kept_sleep_state k m i : kept k m → sleep_state m.1 i = sleep_state k i.
Proof. intros (_ & _ & Hs & Hc). unfold sleep_state. rewrite Hs, Hc. done. Qed.

Lemma kept_refl k : kernel_typed k → kept k (k, Running).
Proof. intros Hk. split; [exact Hk | auto]. Qed.

Lemma kn_sleep_effect millis k :
  kernel_typed k → 0 <= millis < 2 ^ 16 →
  ∃ m, kn_sleep millis k = Some m ∧ kernel_typed m.1 ∧
       kn_system_counter m.1 = kn_system_counter k ∧
       ∀ i, 0 <= i < MAX_THREADS →
         sleep_state m.1 i = sleep_state_after (Sleep millis) k i.
Proof.
  intros Hk Hms. pose proof MAX_THREADS_range.
  pose proof (typed_cur k Hk) as Hcur.
  pose proof (typed_counter_len k Hk) as Hlen.
  unfold kn_sleep, kn_sleep_atomic.
  rewrite slot_mask by lia. simpl. rewrite store_Some by lia. simpl.
  match goal with |- ∃ m, kn_yield ?k1 = _ ∧ _ =>
    destruct (kn_yield_kept k1) as (m & Hm & Hkept) end.
  { destruct Hk. split; simpl; try assumption.
    - apply u8_range.
    - rewrite length_insert. assumption.
    - apply Forall_insert; assumption. }
  exists m. split; [exact Hm |]. split; [apply Hkept |].
  split; [apply Hkept |]. intros i Hi.
  rewrite (kept_sleep_state _ m i Hkept). unfold sleep_state, slot_bit. simpl.
  destruct (decide (i = kn_cur_thread k)) as [-> | Hne].
  - rewrite testbit_set, Z.eqb_refl, orb_true_r, load_insert_eq by lia.
    destruct (Z.ltb_spec (kn_cur_thread k) 8); [reflexivity | lia].
  - rewrite testbit_set_other, load_insert_ne by lia. reflexivity.
Qed.

Lemma kn_create_thread_effect t entry suspended arg k :
  kernel_typed k → tables_ok → 0 <= t < MAX_THREADS → entry ≠ 0 →
  ∃ m, kn_create_thread_impl t entry suspended arg k = Some m ∧
       kernel_typed m.1 ∧
       kn_system_counter m.1 = kn_system_counter k ∧
       ∀ i, 0 <= i < MAX_THREADS →
         sleep_state m.1 i
         = sleep_state_after (CreateThread t entry suspended arg) k i.
Proof.
  intros Hk [Hbases _] Ht Hentry. pose proof MAX_THREADS_range.
  destruct (load_Some kn_stack_base t) as [base Hbase]; [lia |].
  destruct (kn_create_thread_setup_fields t entry suspended arg k base)
    as (k' & Hsetup & Hc & Hd & Hz & Hs & Hcnt & Hst & Htime);
    try assumption.
  assert (kernel_typed k') as Hk'.
  { destruct Hk. split.
    - rewrite Hc. assumption.
    - rewrite Hd. apply u8_range.
    - rewrite Hs. destruct suspended; apply u8_range.
    - rewrite Hz. apply u8_range.
    - rewrite Hst, length_insert. assumption.
    - rewrite Hcnt, length_insert. assumption.
    - rewrite Hcnt. apply Forall_insert; [assumption | lia].
    - rewrite Htime. assumption. }
  assert (∀ i, 0 <= i < MAX_THREADS →
            sleep_state k' i
            = sleep_state_after (CreateThread t entry suspended arg) k i)
    as Hstate.
  { intros i Hi. unfold sleep_state, slot_bit. simpl. rewrite Hz, Hcnt.
    pose proof (typed_counter_len k Hk).
    destruct (decide (i = t)) as [-> | Hne].
    - rewrite testbit_clear, Z.eqb_refl, !andb_false_r, load_insert_eq by lia.
      reflexivity.
    - rewrite testbit_clear_other, load_insert_ne by lia. reflexivity. }
  unfold kn_create_thread_impl. rewrite Hsetup. simpl.
  destruct (decide (t = kn_cur_thread k')).
  - destruct (kn_scheduler_kept k' Hk') as (m & Hm & Hkept).
    exists m. split; [exact Hm |]. split; [apply Hkept |].
    split; [destruct Hkept as (_ & -> & _); exact Htime |].
    intros i Hi. rewrite (kept_sleep_state _ m i Hkept). auto.
  - exists (k', Running). auto.
Qed.

(** Every well-formed call of the running thread returns or hands over to
    the scheduler; the state stays typed, the system counter is not written,
    and the sleep state changes as [sleep_state_after] says. *)
Lemma exec_effect c k :
  kernel_typed k → tables_ok → call_ok c →
  ∃ m, exec c k = Some m ∧ kernel_typed m.1 ∧
       kn_system_counter m.1 = kn_system_counter k ∧
       ∀ i, 0 <= i < MAX_THREADS →
         sleep_state m.1 i = sleep_state_after c k i.
Proof.
  intros Hk Htab Hc.
  assert (∀ m, kept k m →
            kernel_typed m.1 ∧ kn_system_counter m.1 = kn_system_counter k ∧
            ∀ i, 0 <= i < MAX_THREADS → sleep_state m.1 i = sleep_state k i)
    as Hkept.
  { intros m Hm. split; [apply Hm |]. split; [apply Hm |].
    intros i _. apply kept_sleep_state. exact Hm. }
  destruct c as [t e s a | | ms | | t | t | t | t | t | t]; simpl in Hc |- *.
  - destruct Hc. apply kn_create_thread_effect; assumption.
  - destruct (kn_yield_kept k Hk) as (m & -> & Hm). eauto.
  - apply kn_sleep_effect; assumption.
  - exists (k, Running). split; [reflexivity |]. apply Hkept, kept_refl, Hk.
  - rewrite kn_thread_enabled_eq by assumption. simpl.
    exists (k, Running). split; [reflexivity |]. apply Hkept, kept_refl, Hk.
  - rewrite kn_thread_suspended_eq by assumption. simpl.
    exists (k, Running). split; [reflexivity |]. apply Hkept, kept_refl, Hk.
  - rewrite kn_thread_sleeping_eq by assumption. simpl.
    exists (k, Running). split; [reflexivity |]. apply Hkept, kept_refl, Hk.
  - unfold kn_disable. rewrite assert_slot, slot_mask by lia. simpl.
    match goal with |- context [kn_scheduler ?k1] =>
      assert (kernel_typed k1) as Hk1
        by (destruct Hk; split; simpl; try assumption; apply u8_range);
      destruct (kn_scheduler_kept k1 Hk1) as (m & Hm & Hkm) end.
    destruct (decide _).
    + exists m. split; [exact Hm |]. apply Hkept.
      destruct Hkm as (? & ? & ? & ?). split; [assumption |]. auto.
    + eexists. split; [reflexivity |]. apply Hkept. split; [exact Hk1 | auto].
  - rewrite kn_resume_eq by assumption. simpl.
    eexists. split; [reflexivity |]. apply Hkept.
    split; [|auto]. destruct Hk; split; simpl; try assumption.
    apply u8_range.
  - unfold kn_suspend. rewrite assert_slot, slot_mask by lia. simpl.
    match goal with |- context [kn_yield ?k1] =>
      assert (kernel_typed k1) as Hk1
        by (destruct Hk; split; simpl; try assumption; apply u8_range);
      destruct (kn_yield_kept k1 Hk1) as (m & Hm & Hkm) end.
    destruct (decide _).
    + exists m. split; [exact Hm |]. apply Hkept.
      destruct Hkm as (? & ? & ? & ?). split; [assumption |]. auto.
    + eexists. split; [reflexivity |]. apply Hkept. split; [exact Hk1 | auto].
Qed.

(** A tick, whether a thread runs or the scheduler waits. *)
Lemma step_tick_effect k ctl :
  kernel_typed k →
  ∃ m, step (k, ctl) Tick = Some m ∧ kernel_typed m.1 ∧
       kn_system_counter m.1 = u32 (kn_system_counter k + 1) ∧
       ∀ i c, 0 <= i < MAX_THREADS → load (kn_sleep_counter k) i = Some c →
         sleep_state m.1 i
         = ((tick_slot (slot_bit (kn_sleeping_threads k) i) c).1,
            Some (tick_slot (slot_bit (kn_sleeping_threads k) i) c).2).
Proof.
  intros Hk. pose proof (tick_spec_typed k Hk) as Hk'.
  assert (∀ i c, 0 <= i < MAX_THREADS → load (kn_sleep_counter k) i = Some c →
            sleep_state (tick_spec k) i
            = ((tick_slot (slot_bit (kn_sleeping_threads k) i) c).1,
               Some (tick_slot (slot_bit (kn_sleeping_threads k) i) c).2))
    as Hslots.
  { intros i c Hi Hc. destruct (tick_spec_slot k i c Hk Hi Hc) as [Hb Hcnt].
    unfold sleep_state. rewrite Hb, Hcnt. reflexivity. }
  simpl. destruct ctl; rewrite TIMER0_COMPA_vect_spec by assumption; simpl.
  - exists (tick_spec k, Running). auto.
  - destruct (kn_scheduler_kept _ Hk') as (m & Hm & Hkept).
    exists m. split; [exact Hm |]. split; [apply Hkept |].
    split; [destruct Hkept as (_ & -> & _); reflexivity |].
    intros i c Hi Hc. rewrite (kept_sleep_state _ m i Hkept). auto.
Qed.

(** A run of well-formed events from a typed state stays typed, and its
    system counter is the 32-bit sum of the old one and the number of
    ticks. *)
Lemma run_system_counter es : ∀ k ctl m,
  kernel_typed k → tables_ok → Forall event_ok es →
  run (k, ctl) es = Some m →
  kernel_typed m.1 ∧
  kn_system_counter m.1 = u32 (kn_system_counter k + count_ticks es).
Proof.
  induction es as [|e es IH]; intros k ctl m Hk Htab Hes Hrun.
  - injection Hrun as <-. split; [exact Hk |]. simpl.
    rewrite Z.add_0_r. symmetry. apply Z.mod_small, Hk.
  - inversion Hes as [|? ? He Hes']; subst.
    change (run (k, ctl) (e :: es)) with (step (k, ctl) e ≫= λ m, run m es)
      in Hrun.
    destruct e as [|c].
    + destruct (step_tick_effect k ctl Hk) as ([k1 ctl1] & Hstep & Hk1 & Ht & _).
      rewrite Hstep in Hrun. simpl in Hrun, Hk1, Ht.
      destruct (IH k1 ctl1 m Hk1 Htab Hes' Hrun) as [Hm Hcount].
      split; [exact Hm |]. rewrite Hcount, Ht. unfold u32. simpl count_ticks.
      rewrite Zplus_mod_idemp_l. f_equal. lia.
    + destruct ctl; [|discriminate].
      destruct (exec_effect c k Hk Htab He) as ([k1 ctl1] & Hstep & Hk1 & Ht & _).
      simpl in Hrun. rewrite Hstep in Hrun. simpl in Hrun, Hk1, Ht.
      destruct (IH k1 ctl1 m Hk1 Htab Hes' Hrun) as [Hm Hcount].
      split; [exact Hm |]. rewrite Hcount, Ht. reflexivity.
Qed.

(** Invariant I3 survives every tick, and every well-formed call other than
    [kn_sleep(0)]. *)
Lemma step_keeps_I3 k ctl e m :
  kernel_typed k → tables_ok → event_ok e → e ≠ Call (Sleep 0) →
  step (k, ctl) e = Some m → I3 k → I3 m.1.
Proof.
  intros Hk Htab He Hzero Hstep HI3 i c' Hi Hbit Hc'.
  pose proof (typed_counter_len k Hk) as Hlen.
  destruct (load_Some (kn_sleep_counter k) i) as [c Hc]; [lia |].
  assert (0 <= c < 2 ^ 16) as Hrange.
  { pose proof (typed_counter k Hk) as Hall.
    rewrite Forall_lookup in Hall. unfold load in Hc.
    destruct (decide (0 <= i)); [|discriminate]. eapply Hall, Hc. }
  assert (sleep_state m.1 i = (true, Some c')) as Hstate
    by (unfold sleep_state; rewrite Hbit, Hc'; reflexivity).
  destruct e as [|call].
  - destruct (step_tick_effect k ctl Hk) as (m1 & Hm1 & _ & _ & Hslots).
    rewrite Hstep in Hm1. injection Hm1 as <-.
    rewrite (Hslots i c Hi Hc) in Hstate. unfold tick_slot in Hstate.
    destruct (slot_bit (kn_sleeping_threads k) i); [|discriminate].
    simpl in Hstate. injection Hstate as Hnz <-.
    apply negb_true_iff, Z.eqb_neq in Hnz.
    pose proof (u16_range (c - 1)). lia.
  - destruct ctl; [|discriminate]. simpl in Hstep, He.
    destruct (exec_effect call k Hk Htab He) as (m1 & Hm1 & _ & _ & Hslots).
    rewrite Hstep in Hm1. injection Hm1 as <-.
    rewrite (Hslots i Hi) in Hstate.
    assert (sleep_state k i = (true, Some c') → 0 < c') as Hold.
    { unfold sleep_state. intros [= Hb Hcnt]. eapply HI3; eassumption. }
    destruct call; simpl in Hstate; try (apply Hold; exact Hstate).
    + destruct (decide (i = t_id)); [discriminate | auto].
    + destruct (decide (i = kn_cur_thread k)); [|auto].
      injection Hstate as <-. simpl in He.
      destruct (decide (millis = 0)) as [-> | Hnz]; [congruence | lia].
Qed.

Lemma step_typed k ctl e m :
  kernel_typed k → tables_ok → event_ok e →
  step (k, ctl) e = Some m → kernel_typed m.1.
Proof.
  intros Hk Htab He Hstep. destruct e as [|c].
  - destruct (step_tick_effect k ctl Hk) as (m1 & Hm1 & Hk1 & _).
    congruence.
  - destruct ctl; [|discriminate].
    destruct (exec_effect c k Hk Htab He) as (m1 & Hm1 & Hk1 & _).
    simpl in Hstep. congruence.
Qed.

(** So I3 holds all along a run that starts with it, as long as no thread
    calls [kn_sleep(0)]. *)
Lemma run_keeps_I3 es : ∀ k ctl m,
  kernel_typed k → tables_ok → Forall event_ok es →
  Forall (λ e, e ≠ Call (Sleep 0)) es →
  run (k, ctl) es = Some m → I3 k → I3 m.1.
Proof.
  induction es as [|e es IH]; intros k ctl m Hk Htab Hes Hnz Hrun HI3.
  - injection Hrun as <-. exact HI3.
  - inversion Hes as [|? ? He Hes']; inversion Hnz as [|? ? Hne Hnz']; subst.
    change (run (k, ctl) (e :: es)) with (step (k, ctl) e ≫= λ m, run m es)
      in Hrun.
    destruct (step (k, ctl) e) as [[k1 ctl1]|] eqn:Hstep; [|discriminate].
    apply (IH k1 ctl1 m); try assumption.
    + apply (step_typed k ctl e (k1, ctl1)); assumption.
    + apply (step_keeps_I3 k ctl e (k1, ctl1)); assumption.
Qed.

(** While the counter of a sleeping slot is larger than the number of ticks,
    each tick takes one off and the slot stays asleep. *)
Lemma ticks_count_down (n : nat) : ∀ k ctl t c,
  kernel_typed k → 0 <= t < MAX_THREADS →
  sleep_state k t = (true, Some c) → Z.of_nat n < c < 2 ^ 16 →
  ∃ m, ticks n (k, ctl) = Some m ∧ kernel_typed m.1 ∧
       sleep_state m.1 t = (true, Some (c - Z.of_nat n)).
Proof.
  induction n as [|n IH]; intros k ctl t c Hk Ht Hstate Hc.
  - exists (k, ctl). split; [reflexivity |]. split; [exact Hk |]. simpl.
    rewrite Hstate, Z.sub_0_r. reflexivity.
  - injection Hstate as Hbit Hcnt.
    destruct (step_tick_effect k ctl Hk) as ([k1 ctl1] & Hstep & Hk1 & _ & Hslots).
    change (ticks (S n) (k, ctl)) with (step (k, ctl) Tick ≫= ticks n).
    rewrite Hstep. simpl.
    specialize (Hslots t c Ht Hcnt). rewrite Hbit in Hslots.
    unfold tick_slot in Hslots. simpl in Hslots.
    rewrite (u16_small (c - 1)) in Hslots by lia.
    destruct (Z.eqb_spec (c - 1) 0) as [? | _]; [lia |]. simpl in Hslots.
    destruct (IH k1 ctl1 t (c - 1) Hk1 Ht Hslots) as (m & Hm & Hkm & Hsm);
      [lia |].
    exists m. split; [exact Hm |]. split; [exact Hkm |].
    rewrite Hsm. do 2 f_equal. lia.
Qed.

Lemma ticks_app (n1 n2 : nat) : ∀ m,
  ticks (n1 + n2) m = ticks n1 m ≫= ticks n2.
Proof.
  induction n1 as [|n1 IH]; intros m; [reflexivity |].
  change (ticks (S n1 + n2) m) with (step m Tick ≫= ticks (n1 + n2)).
  change (ticks (S n1) m) with (step m Tick ≫= ticks n1).
  destruct (step m Tick) as [m1|]; [apply IH | reflexivity].
Qed.

(** The scheduler selects no sleeping slot, so no thread ever runs while its
    sleeping bit is set. *)
Lemma kn_scheduler_awake k m : kn_scheduler k = Some m → running_awake m.
Proof.
  unfold kn_scheduler. intros Hm.
  destruct (kn_select k) as [n|] eqn:Hsel.
  - apply kn_select_Some in Hsel as [_ Hfree].
    destruct (bit_to_mask n) as [mask|]; [|discriminate]. simpl in Hm.
    destruct (load (kn_stack k) n) as [sp|]; [|discriminate].
    injection Hm as <-. intros _. simpl.
    unfold kn_blocked, slot_bit in *. rewrite Z.lor_spec in Hfree.
    apply orb_false_elim in Hfree as [_ Hfree]. exact Hfree.
  - injection Hm as <-. intros [=].
Qed.

(** A call either returns to the caller, who stays awake, or ends in the
    scheduler. *)
Lemma exec_shape c k :
  kernel_typed k → tables_ok → call_ok c →
  (∃ k1, exec c k = Some (k1, Running) ∧
         (running_awake (k, Running) → running_awake (k1, Running))) ∨
  (∃ k1, exec c k = kn_scheduler k1).
Proof.
  intros Hk Htab Hc. pose proof MAX_THREADS_range.
  pose proof (typed_cur k Hk) as Hcur.
  pose proof (typed_stack_len k Hk) as Hlen.
  pose proof (typed_counter_len k Hk) as Hclen.
  destruct c as [t e s a | | ms | | t | t | t | t | t | t]; simpl in Hc |- *.
  - destruct Hc as [Ht He]. destruct Htab as [Hbases _].
    destruct (load_Some kn_stack_base t) as [base Hbase]; [lia |].
    destruct (kn_create_thread_setup_fields t e s a k base)
      as (k' & Hsetup & Hc' & _ & Hz & _); try assumption.
    unfold kn_create_thread_impl. rewrite Hsetup. simpl.
    destruct (decide (t = kn_cur_thread k')) as [Heq | Hne].
    + right. exists k'. reflexivity.
    + left. exists k'. split; [reflexivity |].
      intros Hawake _. specialize (Hawake eq_refl).
      unfold slot_bit in *. simpl in *. rewrite Hz, Hc'.
      rewrite testbit_clear_other by lia. exact Hawake.
  - right. unfold kn_yield. rewrite store_Some by lia. eexists. reflexivity.
  - right. unfold kn_sleep, kn_sleep_atomic.
    rewrite slot_mask by lia. simpl. rewrite store_Some by lia. simpl.
    unfold kn_yield. rewrite store_Some by (simpl; lia). eexists. reflexivity.
  - left. exists k. split; [reflexivity | auto].
  - left. rewrite kn_thread_enabled_eq by assumption.
    exists k. split; [reflexivity | auto].
  - left. rewrite kn_thread_suspended_eq by assumption.
    exists k. split; [reflexivity | auto].
  - left. rewrite kn_thread_sleeping_eq by assumption.
    exists k. split; [reflexivity | auto].
  - unfold kn_disable. rewrite assert_slot, slot_mask by lia. simpl.
    destruct (decide _).
    + right. eexists. reflexivity.
    + left. eexists. split; [reflexivity | auto].
  - left. rewrite kn_resume_eq by assumption.
    eexists. split; [reflexivity | auto].
  - unfold kn_suspend. rewrite assert_slot, slot_mask by lia. simpl.
    destruct (decide _).
    + right. unfold kn_yield. rewrite store_Some by (simpl; lia).
      eexists. reflexivity.
    + left. eexists. split; [reflexivity | auto].
Qed.

Lemma step_awake k ctl e m :
  kernel_typed k → tables_ok → event_ok e → running_awake (k, ctl) →
  step (k, ctl) e = Some m → running_awake m.
Proof.
  intros Hk Htab He Hawake Hstep. destruct e as [|c].
  - simpl in Hstep. rewrite TIMER0_COMPA_vect_spec in Hstep by assumption.
    destruct ctl; simpl in Hstep.
    + injection Hstep as <-. intros _. cbn [fst].
      pose proof (typed_cur k Hk) as Hcur.
      destruct (load_Some (kn_sleep_counter k) (kn_cur_thread k)) as [c Hc];
        [rewrite (typed_counter_len k Hk); lia |].
      destruct (tick_spec_slot k _ c Hk Hcur Hc) as [Hb _].
      change (kn_cur_thread (tick_spec k)) with (kn_cur_thread k).
      specialize (Hawake eq_refl). cbn [fst] in Hawake.
      rewrite Hb, Hawake. reflexivity.
    + eapply kn_scheduler_awake, Hstep.
  - destruct ctl; [|discriminate]. simpl in Hstep, He.
    destruct (exec_shape c k Hk Htab He) as [(k1 & Hk1 & Hkeep) | (k1 & Hk1)];
      rewrite Hk1 in Hstep.
    + injection Hstep as <-. auto.
    + eapply kn_scheduler_awake, Hstep.
Qed.

(** A slot that sleeps with counter [c] stays asleep, whatever the other
    threads call, until the ticks have used its counter up: [c] ticks, or
    65536 of them when [c] is 0.  Only a new thread in the slot ends the
    sleep earlier. *)
Lemma run_sleeper es : ∀ k ctl t c m,
  kernel_typed k → tables_ok → running_awake (k, ctl) →
  Forall event_ok es → Forall (λ e, ¬ recreates t e) es →
  0 <= t < MAX_THREADS → sleep_state k t = (true, Some c) →
  0 <= c < 2 ^ 16 →
  count_ticks es < (if decide (c = 0) then 65536 else c) →
  run (k, ctl) es = Some m →
  kernel_typed m.1 ∧ running_awake m ∧
  sleep_state m.1 t = (true, Some (u16 (c - count_ticks es))).
Proof.
  induction es as [|e es IH];
    intros k ctl t c m Hk Htab Hawake Hes Hnew Ht Hstate Hc Hn Hrun.
  - injection Hrun as <-. simpl. rewrite Z.sub_0_r, u16_small by lia. auto.
  - inversion Hes as [|? ? He Hes']; inversion Hnew as [|? ? Hne Hnew']; subst.
    change (run (k, ctl) (e :: es)) with (step (k, ctl) e ≫= λ m, run m es)
      in Hrun.
    destruct (step (k, ctl) e) as [[k1 ctl1]|] eqn:Hstep; [|discriminate].
    simpl in Hrun.
    pose proof (step_typed k ctl e _ Hk Htab He Hstep) as Hk1.
    pose proof (step_awake k ctl e _ Hk Htab He Hawake Hstep) as Hawake1.
    simpl in Hk1. injection Hstate as Hbit Hcnt.
    assert (0 <= count_ticks es) as Hpos.
    { clear. induction es as [|[|?] es IH]; simpl; lia. }
    destruct e as [|call].
    + destruct (step_tick_effect k ctl Hk) as (m1 & Hm1 & _ & _ & Hslots).
      rewrite Hstep in Hm1. injection Hm1 as <-.
      specialize (Hslots t c Ht Hcnt). rewrite Hbit in Hslots.
      unfold tick_slot in Hslots. simpl in Hslots, Hn.
      assert (u16 (c - 1) = if decide (c = 0) then 65535 else c - 1) as Hdec.
      { destruct (decide (c = 0)) as [-> | Hnz]; [reflexivity |].
        apply u16_small. lia. }
      assert ((u16 (c - 1) =? 0) = false) as Hnz'.
      { apply Z.eqb_neq. rewrite Hdec. destruct (decide (c = 0)); lia. }
      rewrite Hnz' in Hslots. simpl in Hslots.
      destruct (IH k1 ctl1 t (u16 (c - 1)) m Hk1 Htab Hawake1 Hes' Hnew' Ht
                  Hslots) as (Hkm & Ham & Hsm); [apply u16_range | | exact Hrun |].
      { rewrite Hdec. destruct (decide (c = 0)) as [-> | Hcz].
        - rewrite decide_False by lia. lia.
        - destruct (decide (c - 1 = 0)); lia. }
      split; [exact Hkm |]. split; [exact Ham |].
      rewrite Hsm. unfold u16. rewrite Zminus_mod_idemp_l.
      change (count_ticks (Tick :: es)) with (1 + count_ticks es).
      do 3 f_equal. lia.
    + destruct ctl; [|discriminate]. simpl in Hstep, He, Hne.
      assert (kn_cur_thread k ≠ t) as Hcur.
      { intros <-. specialize (Hawake eq_refl). cbn [fst] in Hawake.
        rewrite Hawake in Hbit. discriminate. }
      destruct (exec_effect call k Hk Htab He) as (m1 & Hm1 & _ & _ & Hslots).
      rewrite Hstep in Hm1. injection Hm1 as <-.
      specialize (Hslots t Ht). simpl in Hslots.
      assert (sleep_state_after call k t = (true, Some c)) as Hsame.
      { unfold sleep_state_after, sleep_state. rewrite Hbit, Hcnt.
        destruct call; try reflexivity.
        - rewrite decide_False by (intros ->; apply Hne; reflexivity).
          reflexivity.
        - rewrite decide_False by congruence. reflexivity. }
      rewrite Hsame in Hslots.
      apply (IH k1 ctl1 t c m); assumption.
Qed.

Lemma ticks_S n m : ticks (S n) m = step m Tick ≫= ticks n.
Proof. reflexivity. Qed.

Lemma sleeping_not_selected k t c :
  0 <= t → sleep_state k t = (true, c) → kn_select k ≠ Some t.
Proof.
  intros Ht [= Hbit _]. apply kn_select_not_sleeping; assumption.
Qed.

Lemma kn_sleep_awake millis k m :
  kernel_typed k → kn_sleep millis k = Some m → running_awake m.
Proof.
  intros Hk. pose proof MAX_THREADS_range.
  pose proof (typed_cur k Hk). pose proof (typed_stack_len k Hk).
  pose proof (typed_counter_len k Hk).
  unfold kn_sleep, kn_sleep_atomic.
  rewrite slot_mask by lia. simpl. rewrite store_Some by lia. simpl.
  unfold kn_yield. rewrite store_Some by (simpl; lia). simpl.
  apply kn_scheduler_awake.
Qed.

(** C6.  A tick that finds a slot sleeping with counter 0 wraps the counter
    to 65535 and leaves the slot asleep.  So after [kn_sleep(0)] the calling
    slot is marked sleeping with counter 0, it is not selected by the
    scheduler then nor after any of the next 65535 ticks, during which its
    counter goes down from 65535, and only the 65536th tick clears its
    sleeping bit.  Whatever the other threads call in between, short of
    creating a new thread in the slot, the slot stays asleep and does not
    run while fewer than 65536 ticks have passed. *)
Theorem sleep_zero_sleeps_65536_ticks k :
  kernel_typed k → tables_ok →
  (∀ i, 0 <= i < MAX_THREADS → sleep_state k i = (true, Some 0) →
     ∃ k', TIMER0_COMPA_vect k = Some k' ∧
           sleep_state k' i = (true, Some 65535)) ∧
  ∃ m,
    kn_sleep 0 k = Some m ∧
    sleep_state m.1 (kn_cur_thread k) = (true, Some 0) ∧
    kn_select m.1 ≠ Some (kn_cur_thread k) ∧
    (∀ n, 1 <= n <= 65535 →
       ∃ m', ticks (Z.to_nat n) m = Some m' ∧
             sleep_state m'.1 (kn_cur_thread k) = (true, Some (65536 - n)) ∧
             kn_select m'.1 ≠ Some (kn_cur_thread k)) ∧
    (∃ m', ticks (Z.to_nat 65536) m = Some m' ∧
           sleep_state m'.1 (kn_cur_thread k) = (false, Some 0)) ∧
    (∀ es m',
       Forall event_ok es →
       Forall (λ e, ¬ recreates (kn_cur_thread k) e) es →
       count_ticks es <= 65535 →
       run m es = Some m' →
       sleep_state m'.1 (kn_cur_thread k)
         = (true, Some ((- count_ticks es) mod 2 ^ 16)) ∧
       kn_select m'.1 ≠ Some (kn_cur_thread k) ∧
       (m'.2 = Running → kn_cur_thread m'.1 ≠ kn_cur_thread k)).
Proof.
  intros Hk Htab. pose proof MAX_THREADS_range.
  assert (∀ k0 ctl i, kernel_typed k0 → 0 <= i < MAX_THREADS →
            sleep_state k0 i = (true, Some 0) →
            ∃ m1, step (k0, ctl) Tick = Some m1 ∧ kernel_typed m1.1 ∧
                  sleep_state m1.1 i = (true, Some 65535)) as Hwrap.
  { intros k0 ctl i Hk0 Hi [= Hbit Hcnt].
    destruct (step_tick_effect k0 ctl Hk0) as (m1 & Hm1 & Hk1 & _ & Hslots).
    exists m1. split; [exact Hm1 |]. split; [exact Hk1 |].
    rewrite (Hslots i 0 Hi Hcnt), Hbit. reflexivity. }
  split.
  { intros i Hi Hstate.
    destruct (Hwrap k Running i Hk Hi Hstate) as (m1 & Hm1 & _ & Hs1).
    simpl in Hm1. destruct (TIMER0_COMPA_vect k) as [k'|]; [|discriminate].
    injection Hm1 as <-. exists k'. split; [reflexivity | exact Hs1]. }
  pose proof (typed_cur k Hk) as Hcur. set (t := kn_cur_thread k) in *.
  destruct (kn_sleep_effect 0 k Hk) as ([k0 ctl0] & Hsleep & Hk0 & _ & Hs0);
    [lia |].
  pose proof (kn_sleep_awake 0 k _ Hk Hsleep) as Hawake0.
  specialize (Hs0 t Hcur). simpl in Hs0, Hk0. fold t in Hs0.
  rewrite decide_True in Hs0 by reflexivity.
  exists (k0, ctl0). split; [exact Hsleep |]. split; [exact Hs0 |].
  split; [eapply sleeping_not_selected; [lia | exact Hs0] |].
  destruct (Hwrap k0 ctl0 t Hk0 Hcur Hs0) as ([k1 ctl1] & Hstep1 & Hk1 & Hs1).
  simpl in Hk1, Hs1.
  assert (∀ n, 1 <= n <= 65535 →
            ∃ m', ticks (Z.to_nat n) (k0, ctl0) = Some m' ∧
                  kernel_typed m'.1 ∧
                  sleep_state m'.1 t = (true, Some (65536 - n))) as Hdown.
  { intros n Hn.
    destruct (ticks_count_down (Z.to_nat (n - 1)) k1 ctl1 t 65535 Hk1 Hcur Hs1)
      as (m' & Hm' & Hkm' & Hsm'); [lia |].
    exists m'. replace (Z.to_nat n) with (S (Z.to_nat (n - 1))) by lia.
    rewrite ticks_S, Hstep1. split; [exact Hm' |]. split; [exact Hkm' |].
    rewrite Hsm'. do 2 f_equal. lia. }
  split; [|split].
  - intros n Hn. destruct (Hdown n Hn) as (m' & Hm' & _ & Hsm').
    exists m'. split; [exact Hm' |]. split; [exact Hsm' |].
    eapply sleeping_not_selected; [lia | exact Hsm'].
  - destruct (Hdown 65535) as ([k2 ctl2] & Hm2 & Hk2 & Hs2); [lia |].
    simpl in Hk2, Hs2. injection Hs2 as Hbit2 Hcnt2.
    destruct (step_tick_effect k2 ctl2 Hk2) as (m3 & Hm3 & _ & _ & Hslots).
    exists m3. replace (Z.to_nat 65536) with (Z.to_nat 65535 + 1)%nat by lia.
    rewrite ticks_app, Hm2. split.
    + change (step (k2, ctl2) Tick ≫= Some = Some m3). rewrite Hm3. reflexivity.
    + rewrite (Hslots t _ Hcur Hcnt2), Hbit2. reflexivity.
  - intros es m' Hes Hnew Hn Hrun.
    destruct (run_sleeper es k0 ctl0 t 0 m' Hk0 Htab Hawake0 Hes Hnew Hcur Hs0)
      as (_ & Hawake' & Hstate'); [lia | simpl; lia | exact Hrun |].
    split; [exact Hstate' |].
    split; [eapply sleeping_not_selected; [lia | exact Hstate'] |].
    intros Hrunning Heq. specialize (Hawake' Hrunning).
    injection Hstate' as Hbit' _. rewrite Heq in Hawake'. congruence.
Qed.

(** With no slot asleep a tick only advances the system counter. *)
Lemma tick_scan_none ids counters : tick_scan ids 0 counters = (0, counters).
Proof. destruct ids; reflexivity. Qed.

Lemma ticks_no_sleepers (n : nat) : ∀ k,
  kernel_typed k → kn_sleeping_threads k = 0 →
  ticks n (k, Running)
  = Some (with_system_counter (u32 (kn_system_counter k + Z.of_nat n)) k,
          Running).
Proof.
  induction n as [|n IH]; intros k Hk Hnone.
  - simpl. rewrite Z.add_0_r. unfold u32.
    rewrite (Z.mod_small _ _ (typed_system_counter k Hk)).
    destruct k; reflexivity.
  - rewrite ticks_S. simpl step.
    rewrite TIMER0_COMPA_vect_spec by assumption. simpl.
    assert (tick_spec k
            = with_system_counter (u32 (kn_system_counter k + 1)) k) as ->.
    { unfold tick_spec. rewrite Hnone, tick_scan_none.
      destruct k; simpl in *; subst; reflexivity. }
    rewrite IH.
    + simpl kn_system_counter.
      replace (u32 (u32 (kn_system_counter k + 1) + Z.of_nat n))
        with (u32 (kn_system_counter k + Z.of_nat (S n))).
      * destruct k; reflexivity.
      * unfold u32. rewrite Zplus_mod_idemp_l. f_equal. lia.
    + destruct Hk. split; simpl; try assumption. apply u32_range.
    + exact Hnone.
Qed.

(** C10, as the code has it.  Over a run of well-formed events the value of
    [kn_millis] advances by the number of ticks modulo 2^32; while the sum
    stays below 2^32 the later observation is not smaller than the earlier
    one. *)
Theorem millis_monotonic_until_wrap k ctl es m :
  kernel_typed k → tables_ok → Forall event_ok es →
  run (k, ctl) es = Some m →
  kn_millis m.1 = (kn_millis k + count_ticks es) mod 2 ^ 32 ∧
  (kn_millis k + count_ticks es < 2 ^ 32 → kn_millis k <= kn_millis m.1).
Proof.
  intros Hk Htab Hes Hrun.
  destruct (run_system_counter es k ctl m Hk Htab Hes Hrun) as [_ Hcount].
  unfold kn_millis. rewrite Hcount. split; [reflexivity |].
  intros Hsmall. pose proof (typed_system_counter k Hk).
  assert (0 <= count_ticks es) as Hpos.
  { clear. induction es as [|[|c] es IH]; simpl; lia. }
  unfold u32. rewrite Z.mod_small by lia. lia.
Qed.

End Runs.

(** ** More on thread creation: the initial frame and the other slots *)

Lemma u16_offset_ne p a b :
  0 <= a < 2 ^ 16 → 0 <= b < 2 ^ 16 → a ≠ b → u16 (p + a) ≠ u16 (p + b).
Proof.
  unfold u16. intros Ha Hb Hne Heq.
  change (2 ^ 16) with 65536 in *.
  Z.div_mod_to_equations. lia.
Qed.

Lemma split_bytes x :
  0 <= x < 2 ^ 16 → Z.shiftr x 8 * 256 + Z.land x 0x00FF = x.
Proof.
  intros Hx. rewrite Z.shiftr_div_pow2 by lia.
  change 0x00FF with (Z.ones 8). rewrite Z.land_ones by lia.
  change (2 ^ 8) with 256. Z.div_mod_to_equations. lia.
Qed.

Section Creation.
Context `{Config}.

(** Everything [kn_create_thread_impl] has written when it reaches its last
    [if]. *)
Lemma kn_create_thread_setup_all t entry suspended arg k base :
  kernel_typed k → 0 <= t < MAX_THREADS → entry ≠ 0 →
  load kn_stack_base t = Some base →
  let sp := u16 (base - INITIAL_STACK_USAGE) in
  kn_create_thread_setup t entry suspended arg k =
  Some (Kernel (kn_cur_thread k) (kn_cur_thread_mask k)
          (u8 (Z.land (kn_disabled_threads k) (Z.lnot (2 ^ t))))
          (if suspended
           then u8 (Z.lor (kn_suspended_threads k) (2 ^ t))
           else u8 (Z.land (kn_suspended_threads k) (Z.lnot (2 ^ t))))
          (u8 (Z.land (kn_sleeping_threads k) (Z.lnot (2 ^ t))))
          (<[Z.to_nat t := sp]> (kn_stack k))
          (<[Z.to_nat t := 0]> (kn_sleep_counter k))
          (kn_system_counter k)
          (<[u16 (sp + 19) := Z.shiftr (u16 kn_thread_bootstrap) 8]>
             (<[u16 (sp + 20) := Z.land (u16 kn_thread_bootstrap) 0x00FF]>
                (<[u16 (sp + 21) := t]>
                   (<[u16 (sp + 22) := Z.shiftr (u16 arg) 8]>
                      (<[u16 (sp + 23) := Z.land (u16 arg) 0x00FF]>
                         (<[u16 (sp + 24) := Z.shiftr (u16 entry) 8]>
                            (<[u16 (sp + 25) := Z.land (u16 entry) 0x00FF]>
                               (ram k))))))))
          (io k)).
Proof.
  intros Hk Ht Hentry Hbase sp. unfold kn_create_thread_setup.
  pose proof (typed_stack_len k Hk). pose proof (typed_counter_len k Hk).
  rewrite assert_slot by lia. simpl.
  rewrite bool_decide_eq_true_2 by assumption. simpl.
  rewrite Hbase. simpl.
  rewrite store_Some by lia. simpl.
  rewrite slot_mask by lia. simpl.
  rewrite store_Some by lia. simpl. reflexivity.
Qed.

Lemma kn_create_thread_other_all t entry suspended arg k base :
  kernel_typed k → 0 <= t < MAX_THREADS → t ≠ kn_cur_thread k →
  entry ≠ 0 → load kn_stack_base t = Some base →
  ∃ k',
    kn_create_thread_setup t entry suspended arg k = Some k' ∧
    kn_create_thread_impl t entry suspended arg k = Some (k', Running).
Proof.
  intros Hk Ht Hcur Hentry Hbase.
  pose proof (kn_create_thread_setup_all t entry suspended arg k base
                Hk Ht Hentry Hbase) as Hsetup. simpl in Hsetup.
  eexists. split; [exact Hsetup |].
  unfold kn_create_thread_impl. rewrite Hsetup. simpl.
  rewrite decide_False by assumption. reflexivity.
Qed.

Ltac frame_lookup :=
  repeat first
    [ rewrite lookup_insert_eq
    | rewrite lookup_insert_ne by (apply u16_offset_ne; lia) ].

(** X1.  The initial frame can be read back: after [kn_create_thread_impl]
    for a slot other than the caller's, the saved stack pointer [sp] of the
    slot has the bootstrap address at [sp + 19], the thread id at [sp + 21],
    the argument at [sp + 22] and the entry point at [sp + 24], each address
    as a 16-bit big-endian word. *)
Theorem create_frame_round_trip k t entry suspended arg base :
  kernel_typed k → 0 <= t < MAX_THREADS → t ≠ kn_cur_thread k →
  entry ≠ 0 → load kn_stack_base t = Some base →
  ∃ k' sp,
    kn_create_thread_impl t entry suspended arg k = Some (k', Running) ∧
    load (kn_stack k') t = Some sp ∧
    frame_word k' sp 19 = Some (u16 kn_thread_bootstrap) ∧
    ram k' !! u16 (sp + 21) = Some t ∧
    frame_word k' sp 22 = Some (u16 arg) ∧
    frame_word k' sp 24 = Some (u16 entry).
Proof.
  intros Hk Ht Hcur Hentry Hbase.
  destruct (kn_create_thread_other_all t entry suspended arg k base)
    as (k' & Hsetup & Himpl); try assumption.
  rewrite (kn_create_thread_setup_all t entry suspended arg k base)
    in Hsetup by assumption.
  injection Hsetup as <-.
  eexists. exists (u16 (base - INITIAL_STACK_USAGE)).
  split; [exact Himpl |]. simpl.
  split; [apply load_insert_eq; rewrite (typed_stack_len k Hk); lia |].
  unfold frame_word. simpl.
  replace (u16 (base - INITIAL_STACK_USAGE) + 19 + 1)
    with (u16 (base - INITIAL_STACK_USAGE) + 20) by lia.
  replace (u16 (base - INITIAL_STACK_USAGE) + 22 + 1)
    with (u16 (base - INITIAL_STACK_USAGE) + 23) by lia.
  replace (u16 (base - INITIAL_STACK_USAGE) + 24 + 1)
    with (u16 (base - INITIAL_STACK_USAGE) + 25) by lia.
  frame_lookup. simpl.
  rewrite !split_bytes by apply u16_range. auto.
Qed.

(** X2.  [kn_create_thread_impl] writes data memory only in the initial
    frame: with an initial stack usage of at least 25 bytes that fits below
    the stack base, every byte that changes lies from [sp + 19] up to the
    stack base, where [sp] is the new saved stack pointer. *)
Theorem create_writes_only_frame k t entry suspended arg base :
  kernel_typed k → 0 <= t < MAX_THREADS → t ≠ kn_cur_thread k →
  entry ≠ 0 → load kn_stack_base t = Some base →
  25 <= INITIAL_STACK_USAGE <= base → base < 2 ^ 16 →
  ∃ k',
    kn_create_thread_impl t entry suspended arg k = Some (k', Running) ∧
    ∀ a, ram k' !! a ≠ ram k !! a →
      base - INITIAL_STACK_USAGE + 19 <= a <= base.
Proof.
  intros Hk Ht Hcur Hentry Hbase Husage Hb.
  destruct (kn_create_thread_other_all t entry suspended arg k base)
    as (k' & Hsetup & Himpl); try assumption.
  rewrite (kn_create_thread_setup_all t entry suspended arg k base)
    in Hsetup by assumption.
  injection Hsetup as <-.
  eexists. split; [exact Himpl |]. simpl. intros a Ha.
  rewrite (u16_small (base - INITIAL_STACK_USAGE)) in Ha by lia.
  set (sp := base - INITIAL_STACK_USAGE) in *.
  destruct (decide (sp + 19 <= a <= sp + 25)) as [Hin | Hout]; [lia |].
  exfalso. apply Ha.
  repeat (rewrite lookup_insert_ne by (rewrite u16_small by lia; lia)).
  reflexivity.
Qed.

(** X3.  [kn_create_thread_impl] for slot [t] leaves every other slot as it
    was: its bits in the three sets, its sleep counter and its saved stack
    pointer; and it leaves the current thread, its mask, the system counter
    and the I/O registers alone. *)
Theorem create_keeps_other_slots k t entry suspended arg base :
  kernel_typed k → 0 <= t < MAX_THREADS → t ≠ kn_cur_thread k →
  entry ≠ 0 → load kn_stack_base t = Some base →
  ∃ k',
    kn_create_thread_impl t entry suspended arg k = Some (k', Running) ∧
    kn_cur_thread k' = kn_cur_thread k ∧
    kn_cur_thread_mask k' = kn_cur_thread_mask k ∧
    kn_system_counter k' = kn_system_counter k ∧
    io k' = io k ∧
    ∀ i, 0 <= i < MAX_THREADS → i ≠ t →
      slot_bit (kn_disabled_threads k') i
        = slot_bit (kn_disabled_threads k) i ∧
      slot_bit (kn_suspended_threads k') i
        = slot_bit (kn_suspended_threads k) i ∧
      slot_bit (kn_sleeping_threads k') i
        = slot_bit (kn_sleeping_threads k) i ∧
      load (kn_sleep_counter k') i = load (kn_sleep_counter k) i ∧
      load (kn_stack k') i = load (kn_stack k) i.
Proof.
  intros Hk Ht Hcur Hentry Hbase. pose proof MAX_THREADS_range.
  destruct (kn_create_thread_other_all t entry suspended arg k base)
    as (k' & Hsetup & Himpl); try assumption.
  rewrite (kn_create_thread_setup_all t entry suspended arg k base)
    in Hsetup by assumption.
  injection Hsetup as <-.
  eexists. split; [exact Himpl |]. simpl.
  do 4 (split; [reflexivity |]).
  intros i Hi Hne. unfold slot_bit.
  rewrite !testbit_clear_other, !load_insert_ne by lia.
  repeat split.
  destruct suspended;
    [apply testbit_set_other | apply testbit_clear_other]; lia.
Qed.

(** X4.  What the predicates say of a newly created thread: it is enabled,
    it is not sleeping, and it is suspended exactly when it was created
    suspended. *)
Theorem create_then_predicates k t entry suspended arg base :
  kernel_typed k → 0 <= t < MAX_THREADS → t ≠ kn_cur_thread k →
  entry ≠ 0 → load kn_stack_base t = Some base →
  ∃ k',
    kn_create_thread_impl t entry suspended arg k = Some (k', Running) ∧
    kn_thread_enabled t k' = Some true ∧
    kn_thread_suspended t k' = Some suspended ∧
    kn_thread_sleeping t k' = Some false.
Proof.
  intros Hk Ht Hcur Hentry Hbase. pose proof MAX_THREADS_range.
  destruct (kn_create_thread_other_all t entry suspended arg k base)
    as (k' & Hsetup & Himpl); try assumption.
  rewrite (kn_create_thread_setup_all t entry suspended arg k base)
    in Hsetup by assumption.
  injection Hsetup as <-.
  eexists. split; [exact Himpl |].
  rewrite kn_thread_enabled_eq, kn_thread_suspended_eq, kn_thread_sleeping_eq
    by assumption.
  unfold slot_bit. simpl.
  rewrite !testbit_clear, Z.eqb_refl, !andb_false_r by lia. simpl.
  split; [reflexivity |]. split; [|reflexivity].
  destruct suspended.
  - rewrite testbit_set, Z.eqb_refl, orb_true_r by lia.
    destruct (Z.ltb_spec t 8); [reflexivity | lia].
  - rewrite testbit_clear, Z.eqb_refl, !andb_false_r by lia. reflexivity.
Qed.

End Creation.

(** ** More on initialisation: registers, canaries, the first state *)

Section InitMore.
Context `{Config}.

Lemma kn_init_slot_ram i k canary :
  tables_ok → 0 <= i < MAX_THREADS →
  Z.of_nat (length (kn_stack k)) = MAX_THREADS →
  Z.of_nat (length (kn_sleep_counter k)) = MAX_THREADS →
  (KERNEL_USE_STACK_CANARY = true → load kn_canary_loc i = Some canary) →
  ∃ k',
    kn_init_slot i k = Some k' ∧
    ram k' = (if KERNEL_USE_STACK_CANARY
              then <[u16 (canary + 0) := STACK_CANARY]> (ram k)
              else ram k).
Proof.
  intros [Hbases Hcanaries] Hi Hst Hcnt Hcanary. unfold kn_init_slot.
  destruct (load_Some kn_stack_base i) as [base ->]; [lia |]. simpl.
  rewrite !store_Some by lia. simpl.
  destruct KERNEL_USE_STACK_CANARY.
  - rewrite Hcanary by reflexivity. simpl. eexists. split; reflexivity.
  - eexists. split; reflexivity.
Qed.

(** The canaries the loop of [kn_init] has written from slot [i] on, and the
    bytes it has not touched. *)
Lemma kn_init_loop_ram (n : nat) : ∀ i k,
  tables_ok → 0 <= i → i + Z.of_nat n = MAX_THREADS →
  Z.of_nat (length (kn_stack k)) = MAX_THREADS →
  Z.of_nat (length (kn_sleep_counter k)) = MAX_THREADS →
  ∃ k',
    kn_init_loop i k = Some k' ∧
    (KERNEL_USE_STACK_CANARY = false → ram k' = ram k) ∧
    (KERNEL_USE_STACK_CANARY = true →
       (∀ a, ram k !! a = Some STACK_CANARY →
             ram k' !! a = Some STACK_CANARY) ∧
       (∀ j c, i <= j < MAX_THREADS → load kn_canary_loc j = Some c →
               ram k' !! u16 (c + 0) = Some STACK_CANARY) ∧
       (∀ a, (∀ j c, i <= j < MAX_THREADS → load kn_canary_loc j = Some c →
                     a ≠ u16 (c + 0)) →
             ram k' !! a = ram k !! a)).
Proof.
  pose proof MAX_THREADS_range.
  induction n as [|n IH]; intros i k Htab Hi Hn Hst Hcnt;
    rewrite kn_init_loop_eq.
  - rewrite decide_False by lia. exists k.
    split; [reflexivity |]. split; [reflexivity |]. intros _.
    split; [auto |]. split; [intros; lia | reflexivity].
  - rewrite decide_True by lia.
    assert (∃ canary, KERNEL_USE_STACK_CANARY = true →
                      load kn_canary_loc i = Some canary) as [canary Hcanary].
    { destruct (decide (KERNEL_USE_STACK_CANARY = true)) as [Hyes | Hno].
      - destruct (load_Some kn_canary_loc i) as [c Hc];
          [rewrite (proj2 Htab Hyes); lia |].
        exists c. auto.
      - exists 0. intros Hyes. contradiction. }
    destruct (load_Some kn_stack_base i) as [base Hbase];
      [destruct Htab as [-> _]; lia |].
    destruct (kn_init_slot_fields i k base) as (k1 & Hslot & Hst1 & Hcnt1 & _);
      try assumption; [lia |].
    destruct (kn_init_slot_ram i k canary) as (k1' & Hslot' & Hram1);
      try assumption; [lia |].
    rewrite Hslot in Hslot'. injection Hslot' as <-.
    rewrite Hslot. simpl. rewrite (u8_small (i + 1)) by lia.
    destruct (IH (i + 1) k1) as (k' & -> & Hoff & Hon);
      try assumption; try lia.
    { rewrite Hst1, length_insert. assumption. }
    { rewrite Hcnt1, length_insert. assumption. }
    exists k'. split; [reflexivity |]. split.
    + intros Hno. rewrite (Hoff Hno), Hram1, Hno. reflexivity.
    + intros Hyes. destruct (Hon Hyes) as (Hkeep & Hset & Hrest).
      rewrite Hyes in Hram1. specialize (Hcanary Hyes).
      assert (∀ a, ram k !! a = Some STACK_CANARY →
                   ram k1 !! a = Some STACK_CANARY) as Hkeep1.
      { intros a Ha. rewrite Hram1.
        destruct (decide (u16 (canary + 0) = a)) as [<- | Hne];
          [apply lookup_insert_eq | rewrite lookup_insert_ne by assumption].
        exact Ha. }
      split; [auto |]. split.
      * intros j c Hj Hc. destruct (decide (j = i)) as [-> | Hne].
        -- assert (c = canary) as -> by congruence.
           apply Hkeep. rewrite Hram1. apply lookup_insert_eq.
        -- apply (Hset j c); [lia | exact Hc].
      * intros a Ha. rewrite Hrest, Hram1.
        -- apply lookup_insert_ne. intros Heq.
           apply (Ha i canary); [lia | exact Hcanary | congruence].
        -- intros j c Hj Hc. apply (Ha j c); [lia | exact Hc].
Qed.

(** [kn_init] after its loop. *)
Lemma kn_init_after_loop k k1 sp :
  kn_init_loop 0 k = Some k1 → load (kn_stack k1) THREAD0 = Some sp →
  kn_init k =
  Some (Kernel 0 0x01 0xFE 0 0 (kn_stack k1) (kn_sleep_counter k1) 0 (ram k1)
          (IoRegs sp (u8 (Z.lor (TCCR0A (io k1)) 0x02))
             (u8 (Z.lor (TCCR0B (io k1)) 0x03)) 250
             (u8 (Z.lor (TIMSK0 (io k1)) 0x02)) 0)).
Proof.
  intros Hloop Hsp. unfold kn_init. rewrite Hloop. simpl.
  rewrite Hsp. reflexivity.
Qed.

Lemma kn_init_result k :
  tables_ok →
  Z.of_nat (length (kn_stack k)) = MAX_THREADS →
  Z.of_nat (length (kn_sleep_counter k)) = MAX_THREADS →
  ∃ k1 base0,
    kn_init_loop 0 k = Some k1 ∧
    load kn_stack_base 0 = Some base0 ∧
    io k1 = io k ∧
    Z.of_nat (length (kn_stack k1)) = MAX_THREADS ∧
    Z.of_nat (length (kn_sleep_counter k1)) = MAX_THREADS ∧
    (∀ j, 0 <= j < MAX_THREADS →
       load (kn_sleep_counter k1) j = Some 0) ∧
    kn_init k =
    Some (Kernel 0 0x01 0xFE 0 0 (kn_stack k1) (kn_sleep_counter k1) 0
            (ram k1)
            (IoRegs base0 (u8 (Z.lor (TCCR0A (io k1)) 0x02))
               (u8 (Z.lor (TCCR0B (io k1)) 0x03)) 250
               (u8 (Z.lor (TIMSK0 (io k1)) 0x02)) 0)).
Proof.
  intros Htab Hst Hcnt. pose proof MAX_THREADS_range.
  destruct (kn_init_loop_fields (Z.to_nat MAX_THREADS) 0 k)
    as (k1 & Hloop & Hst1 & Hcnt1 & Hio & Hslots); try assumption; try lia.
  destruct (load_Some kn_stack_base 0) as [base0 Hbase0];
    [destruct Htab as [-> _]; lia |].
  exists k1, base0. split; [exact Hloop |]. split; [exact Hbase0 |].
  split; [exact Hio |]. split; [exact Hst1 |]. split; [exact Hcnt1 |].
  split.
  - intros j Hj. destruct (Hslots j Hj) as [_ Hc].
    rewrite decide_True in Hc by lia. exact Hc.
  - apply kn_init_after_loop; [exact Hloop |].
    destruct (Hslots 0) as [Hs _]; [lia |].
    rewrite decide_True in Hs by lia. unfold THREAD0. congruence.
Qed.

(** X5.  [kn_init] points the stack pointer at the stack base of slot 0,
    sets the compare value of timer 0 to 250 and clears [SMCR]; in [TCCR0A]
    and [TIMSK0] it sets bit 1 and in [TCCR0B] bits 0 and 1, and every other
    bit of these three registers stays as it was. *)
Theorem kn_init_registers k :
  tables_ok →
  Z.of_nat (length (kn_stack k)) = MAX_THREADS →
  Z.of_nat (length (kn_sleep_counter k)) = MAX_THREADS →
  ∃ k' base0,
    kn_init k = Some k' ∧
    load kn_stack_base 0 = Some base0 ∧ SP (io k') = base0 ∧
    OCR0A (io k') = 250 ∧ SMCR (io k') = 0 ∧
    ∀ i, 0 <= i < 8 →
      Z.testbit (TCCR0A (io k')) i
        = (Z.testbit (TCCR0A (io k)) i || (i =? 1)) ∧
      Z.testbit (TCCR0B (io k')) i
        = (Z.testbit (TCCR0B (io k)) i || (i =? 0) || (i =? 1)) ∧
      Z.testbit (TIMSK0 (io k')) i
        = (Z.testbit (TIMSK0 (io k)) i || (i =? 1)).
Proof.
  intros Htab Hst Hcnt.
  destruct (kn_init_result k Htab Hst Hcnt)
    as (k1 & base0 & _ & Hbase0 & Hio & _ & _ & _ & Hinit).
  eexists. exists base0. split; [exact Hinit |]. simpl.
  split; [exact Hbase0 |]. do 3 (split; [reflexivity |]).
  intros i Hi. rewrite Hio, !testbit_u8, !Z.lor_spec.
  destruct (Z.ltb_spec i 8); [|lia]. simpl.
  assert (i = 0 ∨ i = 1 ∨ i = 2 ∨ i = 3 ∨ i = 4 ∨ i = 5 ∨ i = 6 ∨ i = 7)
    as Hcases by lia.
  repeat destruct Hcases as [-> | Hcases]; try subst i;
    simpl; rewrite ?orb_false_r, ?orb_true_r; auto.
Qed.

(** X6.  With stack canaries [kn_init] leaves [STACK_CANARY] at the canary
    location of every slot and changes no other byte of data memory; without
    them it does not write data memory at all. *)
Theorem kn_init_canaries k :
  tables_ok →
  Z.of_nat (length (kn_stack k)) = MAX_THREADS →
  Z.of_nat (length (kn_sleep_counter k)) = MAX_THREADS →
  ∃ k',
    kn_init k = Some k' ∧
    (KERNEL_USE_STACK_CANARY = false → ram k' = ram k) ∧
    (KERNEL_USE_STACK_CANARY = true →
       (∀ j, 0 <= j < MAX_THREADS →
          ∃ c, load kn_canary_loc j = Some c ∧
               ram k' !! u16 c = Some STACK_CANARY) ∧
       (∀ a, (∀ j c, 0 <= j < MAX_THREADS → load kn_canary_loc j = Some c →
                     a ≠ u16 c) →
             ram k' !! a = ram k !! a)).
Proof.
  intros Htab Hst Hcnt. pose proof MAX_THREADS_range.
  destruct (kn_init_result k Htab Hst Hcnt)
    as (k1 & base0 & Hloop & _ & _ & _ & _ & _ & Hinit).
  destruct (kn_init_loop_ram (Z.to_nat MAX_THREADS) 0 k)
    as (k1' & Hloop' & Hoff & Hon); try assumption; try lia.
  rewrite Hloop in Hloop'. injection Hloop' as <-.
  eexists. split; [exact Hinit |]. simpl. split; [exact Hoff |].
  intros Hyes. destruct (Hon Hyes) as (_ & Hset & Hrest). split.
  - intros j Hj.
    destruct (load_Some kn_canary_loc j) as [c Hc];
      [destruct Htab as [_ ->]; [lia | exact Hyes] |].
    exists c. split; [exact Hc |].
    specialize (Hset j c Hj Hc). rewrite Z.add_0_r in Hset. exact Hset.
  - intros a Ha. apply Hrest. intros j c Hj Hc.
    rewrite Z.add_0_r. apply (Ha j c Hj Hc).
Qed.

Lemma kn_init_typed k k' :
  tables_ok →
  Z.of_nat (length (kn_stack k)) = MAX_THREADS →
  Z.of_nat (length (kn_sleep_counter k)) = MAX_THREADS →
  kn_init k = Some k' →
  kernel_typed k' ∧ kn_sleeping_threads k' = 0 ∧
  kn_disabled_threads k' = 0xFE ∧ kn_suspended_threads k' = 0.
Proof.
  intros Htab Hst Hcnt Hk'. pose proof MAX_THREADS_range.
  destruct (kn_init_result k Htab Hst Hcnt)
    as (k1 & base0 & _ & _ & _ & Hst1 & Hcnt1 & Hzero & Hinit).
  rewrite Hinit in Hk'. injection Hk' as <-.
  split; [|auto]. split; simpl; try lia; try assumption.
  apply Forall_lookup. intros j c Hc.
  assert (load (kn_sleep_counter k1) (Z.of_nat j) = Some c) as Hload.
  { unfold load. rewrite decide_True, Nat2Z.id by lia. exact Hc. }
  apply lookup_lt_Some in Hc.
  rewrite Hzero in Hload by lia. injection Hload as <-. lia.
Qed.

(** X7.  Right after [kn_init] thread 0 is the only enabled thread: for every
    slot [kn_thread_enabled] is true exactly for slot 0, and
    [kn_thread_suspended] and [kn_thread_sleeping] are false. *)
Theorem kn_init_then_predicates k :
  tables_ok →
  Z.of_nat (length (kn_stack k)) = MAX_THREADS →
  Z.of_nat (length (kn_sleep_counter k)) = MAX_THREADS →
  ∃ k',
    kn_init k = Some k' ∧
    ∀ i, 0 <= i < MAX_THREADS →
      kn_thread_enabled i k' = Some (i =? 0) ∧
      kn_thread_suspended i k' = Some false ∧
      kn_thread_sleeping i k' = Some false.
Proof.
  intros Htab Hst Hcnt. pose proof MAX_THREADS_range.
  destruct (kn_init_result k Htab Hst Hcnt)
    as (k1 & base0 & _ & _ & _ & _ & _ & _ & Hinit).
  eexists. split; [exact Hinit |]. intros i Hi.
  rewrite kn_thread_enabled_eq, kn_thread_suspended_eq, kn_thread_sleeping_eq
    by assumption.
  unfold slot_bit. simpl. rewrite Z.bits_0, !andb_false_r.
  split; [|auto]. f_equal.
  assert (i = 0 ∨ i = 1 ∨ i = 2 ∨ i = 3 ∨ i = 4 ∨ i = 5 ∨ i = 6 ∨ i = 7)
    as Hcases by lia.
  repeat destruct Hcases as [-> | Hcases]; try subst i; reflexivity.
Qed.

End InitMore.

(** ** More on ticks, sleeps and runs *)

Lemma count_ticks_nonneg es : 0 <= count_ticks es.
Proof. induction es as [|[|c] es IH]; simpl; lia. Qed.

Section SleepMore.
Context `{Config}.

(** X8.  From [kn_init] on, invariant I3 holds after every call and every
    tick of a run in which no thread calls [kn_sleep(0)]: a slot whose
    sleeping bit is set has a positive sleep counter. *)
Theorem I3_holds_from_init k k0 es m :
  tables_ok →
  Z.of_nat (length (kn_stack k)) = MAX_THREADS →
  Z.of_nat (length (kn_sleep_counter k)) = MAX_THREADS →
  kn_init k = Some k0 →
  Forall event_ok es → Forall (λ e, e ≠ Call (Sleep 0)) es →
  run (k0, Running) es = Some m →
  I3 m.1.
Proof.
  intros Htab Hst Hcnt Hinit Hes Hnz Hrun.
  destruct (kn_init_typed k k0 Htab Hst Hcnt Hinit) as (Hk0 & Hnone & _).
  apply (run_keeps_I3 es k0 Running m); try assumption.
  intros i c _ Hbit. unfold slot_bit in Hbit.
  rewrite Hnone, Z.bits_0 in Hbit. discriminate.
Qed.

(** X9.  The tick ISR never puts a slot to sleep: a bit that is set in the
    sleeping set after the ISR was set before it, for the slots and for the
    bits beyond the last slot alike. *)
Theorem tick_never_sets_sleeping k :
  kernel_typed k →
  ∃ k',
    TIMER0_COMPA_vect k = Some k' ∧
    ∀ i, 0 <= i →
      slot_bit (kn_sleeping_threads k') i = true →
      slot_bit (kn_sleeping_threads k) i = true.
Proof.
  intros Hk. exists (tick_spec k).
  split; [apply TIMER0_COMPA_vect_spec; assumption |].
  intros i Hi Hbit.
  destruct (decide (i < MAX_THREADS)) as [Hslot | Hhigh].
  - destruct (load_Some (kn_sleep_counter k) i) as [c Hc];
      [rewrite (typed_counter_len k Hk); lia |].
    destruct (tick_spec_slot k i c Hk) as [Hb _]; [lia | exact Hc |].
    rewrite Hb in Hbit. unfold tick_slot in Hbit.
    destruct (slot_bit (kn_sleeping_threads k) i); [reflexivity | exact Hbit].
  - rewrite tick_spec_high_bits in Hbit by (assumption || lia). exact Hbit.
Qed.

(** X10.  When no slot sleeps, the tick ISR does nothing but advance the
    system counter. *)
Theorem tick_without_sleepers k :
  kn_sleeping_threads k = 0 →
  TIMER0_COMPA_vect k
  = Some (with_system_counter (u32 (kn_system_counter k + 1)) k).
Proof.
  intros Hnone. unfold TIMER0_COMPA_vect. simpl.
  rewrite isr_loop_eq, Hnone, decide_False by tauto. simpl.
  destruct k; simpl in *; subst; reflexivity.
Qed.

(** X11.  [kn_sleep(ms)] with 1 <= ms <= 65535 puts the caller to sleep for
    exactly [ms] ticks: after fewer ticks its sleeping bit is set and its
    counter says how many are left, whatever the other threads call in
    between, short of creating a new thread in the slot, and it does not run;
    the [ms]-th tick in a row clears the bit. *)
Theorem sleep_lasts_ms_ticks k ms :
  kernel_typed k → tables_ok → 1 <= ms <= 65535 →
  ∃ m,
    kn_sleep ms k = Some m ∧
    (∀ es m',
       Forall event_ok es →
       Forall (λ e, ¬ recreates (kn_cur_thread k) e) es →
       count_ticks es < ms →
       run m es = Some m' →
       sleep_state m'.1 (kn_cur_thread k)
         = (true, Some (ms - count_ticks es)) ∧
       (m'.2 = Running → kn_cur_thread m'.1 ≠ kn_cur_thread k)) ∧
    (∀ n, 0 <= n < ms →
       ∃ m', ticks (Z.to_nat n) m = Some m' ∧
             sleep_state m'.1 (kn_cur_thread k) = (true, Some (ms - n))) ∧
    ∃ m', ticks (Z.to_nat ms) m = Some m' ∧
          sleep_state m'.1 (kn_cur_thread k) = (false, Some 0).
Proof.
  intros Hk Htab Hms.
  pose proof (typed_cur k Hk) as Hcur. set (t := kn_cur_thread k) in *.
  destruct (kn_sleep_effect ms k Hk) as ([k0 ctl0] & Hsleep & Hk0 & _ & Hs0);
    [lia |].
  pose proof (kn_sleep_awake ms k _ Hk Hsleep) as Hawake0.
  specialize (Hs0 t Hcur). simpl in Hs0, Hk0. fold t in Hs0.
  rewrite decide_True in Hs0 by reflexivity.
  exists (k0, ctl0). split; [exact Hsleep |]. split; [|split].
  - intros es m' Hes Hnew Hn Hrun.
    pose proof (count_ticks_nonneg es) as Hpos.
    destruct (run_sleeper es k0 ctl0 t ms m' Hk0 Htab Hawake0 Hes Hnew Hcur Hs0)
      as (_ & Hawake' & Hstate');
      [lia | rewrite decide_False by lia; lia | exact Hrun |].
    rewrite u16_small in Hstate' by lia.
    split; [exact Hstate' |].
    intros Hrunning Heq. specialize (Hawake' Hrunning).
    injection Hstate' as Hbit' _. rewrite Heq in Hawake'. congruence.
  - intros n Hn.
    destruct (ticks_count_down (Z.to_nat n) k0 ctl0 t ms Hk0 Hcur Hs0)
      as (m' & Hm' & _ & Hsm'); [lia |].
    exists m'. split; [exact Hm' |]. rewrite Hsm'. do 2 f_equal. lia.
  - destruct (ticks_count_down (Z.to_nat (ms - 1)) k0 ctl0 t ms Hk0 Hcur Hs0)
      as ([k2 ctl2] & Hm2 & Hk2 & Hs2); [lia |].
    simpl in Hk2, Hs2. injection Hs2 as Hbit2 Hcnt2.
    destruct (step_tick_effect k2 ctl2 Hk2) as (m3 & Hm3 & _ & _ & Hslots).
    exists m3.
    replace (Z.to_nat ms) with (Z.to_nat (ms - 1) + 1)%nat by lia.
    rewrite ticks_app, Hm2. split.
    + change (step (k2, ctl2) Tick ≫= Some = Some m3). rewrite Hm3. reflexivity.
    + rewrite (Hslots t _ Hcur Hcnt2), Hbit2.
      replace (ms - Z.of_nat (Z.to_nat (ms - 1))) with 1 by lia. reflexivity.
Qed.


(** X13.  On a typed state no well-formed call of the running thread and no
    tick fails an assertion or reaches outside [kn_stack], [kn_sleep_counter]
    or the flash tables: each has a result, and the result is typed again. *)
Theorem steps_are_safe k e :
  kernel_typed k → tables_ok → event_ok e →
  ∃ m, step (k, Running) e = Some m ∧ kernel_typed m.1.
Proof.
  intros Hk Htab He. destruct e as [|c].
  - destruct (step_tick_effect k Running Hk) as (m & Hm & Hkm & _). eauto.
  - destruct (exec_effect c k Hk Htab He) as (m & Hm & Hkm & _). eauto.
Qed.

End SleepMore.

(** ** More on suspending, resuming and disabling *)

Lemma set_then_clear x t :
  0 <= t < 8 → 0 <= x < 2 ^ 8 → Z.testbit x t = false →
  u8 (Z.land (u8 (Z.lor x (2 ^ t))) (Z.lnot (2 ^ t))) = x.
Proof.
  intros Ht Hx Hbit. apply Z.bits_inj'. intros i Hi.
  rewrite testbit_clear, testbit_set by lia.
  destruct (Z.ltb_spec i 8); simpl.
  - destruct (Z.eqb_spec t i) as [<- | Hne]; simpl.
    + rewrite Hbit, andb_false_r. reflexivity.
    + rewrite orb_false_r, andb_true_r. reflexivity.
  - symmetry. apply testbit_byte_high; lia.
Qed.

Lemma clear_then_set x t :
  0 <= t < 8 → 0 <= x < 2 ^ 8 → Z.testbit x t = true →
  u8 (Z.lor (u8 (Z.land x (Z.lnot (2 ^ t)))) (2 ^ t)) = x.
Proof.
  intros Ht Hx Hbit. apply Z.bits_inj'. intros i Hi.
  rewrite testbit_set, testbit_clear by lia.
  destruct (Z.ltb_spec i 8); simpl.
  - destruct (Z.eqb_spec t i) as [<- | Hne]; simpl.
    + rewrite Hbit, orb_true_r. reflexivity.
    + rewrite orb_false_r, andb_true_r. reflexivity.
  - symmetry. apply testbit_byte_high; lia.
Qed.

Lemma set_clear_commute x a b :
  0 <= a < 8 → 0 <= b < 8 → a ≠ b →
  u8 (Z.land (u8 (Z.lor x (2 ^ a))) (Z.lnot (2 ^ b)))
  = u8 (Z.lor (u8 (Z.land x (Z.lnot (2 ^ b)))) (2 ^ a)).
Proof.
  intros Ha Hb Hne. apply Z.bits_inj'. intros i Hi.
  rewrite testbit_clear, !testbit_set, testbit_clear by lia.
  destruct (Z.ltb_spec i 8); simpl; [|reflexivity].
  destruct (Z.eqb_spec a i), (Z.eqb_spec b i); try lia;
    destruct (Z.testbit x i); reflexivity.
Qed.

Section SuspendMore.
Context `{Config}.

(** X14.  [kn_suspend] and [kn_resume] undo each other on a slot other than
    the caller's: resuming a slot just suspended gives back the state in
    which it was not suspended, and suspending a slot just resumed gives back
    the state in which it was. *)
Theorem suspend_resume_round_trip k t :
  kernel_typed k → 0 <= t < MAX_THREADS → t ≠ kn_cur_thread k →
  (slot_bit (kn_suspended_threads k) t = false →
     ∃ k1, kn_suspend t k = Some (k1, Running) ∧ kn_resume t k1 = Some k) ∧
  (slot_bit (kn_suspended_threads k) t = true →
     ∃ k1, kn_resume t k = Some k1 ∧ kn_suspend t k1 = Some (k, Running)).
Proof.
  intros Hk Ht Hcur. pose proof MAX_THREADS_range.
  pose proof (typed_suspended k Hk) as Hs. split; intros Hbit.
  - eexists. split; [apply kn_suspend_other; assumption |].
    rewrite kn_resume_eq by assumption. simpl.
    rewrite set_then_clear by (assumption || lia).
    destruct k; reflexivity.
  - eexists. split; [apply kn_resume_eq; assumption |].
    rewrite kn_suspend_other by assumption. simpl.
    rewrite clear_then_set by (assumption || lia).
    destruct k; reflexivity.
Qed.

(** X15.  What the predicates say after the three calls on a slot other than
    the caller's: after [kn_suspend] the slot is suspended if it is enabled;
    after [kn_resume] it is not suspended; after [kn_disable] it is neither
    enabled nor suspended nor sleeping, and [kn_resume] does not enable it
    again. *)
Theorem predicates_after_calls k t :
  kernel_typed k → 0 <= t < MAX_THREADS → t ≠ kn_cur_thread k →
  (∃ k1, kn_suspend t k = Some (k1, Running) ∧
         kn_thread_suspended t k1 = kn_thread_enabled t k) ∧
  (∃ k1, kn_resume t k = Some k1 ∧ kn_thread_suspended t k1 = Some false) ∧
  (∃ k1 k2, kn_disable t k = Some (k1, Running) ∧
            kn_thread_enabled t k1 = Some false ∧
            kn_thread_suspended t k1 = Some false ∧
            kn_thread_sleeping t k1 = Some false ∧
            kn_resume t k1 = Some k2 ∧
            kn_thread_enabled t k2 = Some false).
Proof.
  intros Hk Ht Hcur. pose proof MAX_THREADS_range.
  assert (Z.testbit (u8 (Z.lor (kn_disabled_threads k) (2 ^ t))) t = true)
    as Hset.
  { rewrite testbit_set, Z.eqb_refl, orb_true_r by lia.
    destruct (Z.ltb_spec t 8); [reflexivity | lia]. }
  split; [|split].
  - eexists. split; [apply kn_suspend_other; assumption |].
    rewrite kn_thread_suspended_eq, kn_thread_enabled_eq by assumption.
    unfold slot_bit. simpl.
    rewrite testbit_set, Z.eqb_refl, orb_true_r by lia.
    destruct (Z.ltb_spec t 8); [|lia]. rewrite andb_true_r. reflexivity.
  - eexists. split; [apply kn_resume_eq; assumption |].
    rewrite kn_thread_suspended_eq by assumption. unfold slot_bit. simpl.
    rewrite testbit_clear, Z.eqb_refl, !andb_false_r by lia. reflexivity.
  - do 2 eexists. split; [apply kn_disable_other; assumption |].
    rewrite kn_thread_enabled_eq, kn_thread_suspended_eq,
      kn_thread_sleeping_eq by assumption.
    unfold slot_bit. simpl. rewrite Hset. simpl.
    do 3 (split; [reflexivity |]).
    split; [apply kn_resume_eq; assumption |].
    rewrite kn_thread_enabled_eq by assumption. unfold slot_bit. simpl.
    rewrite Hset. reflexivity.
Qed.

(** X16.  [kn_suspend], [kn_resume] and [kn_disable] on one slot change
    nothing that the predicates say of any other slot. *)
Theorem calls_keep_other_slots k t i :
  kernel_typed k → 0 <= t < MAX_THREADS → t ≠ kn_cur_thread k →
  0 <= i < MAX_THREADS → i ≠ t →
  ∃ k1 k2 k3,
    kn_suspend t k = Some (k1, Running) ∧
    kn_resume t k = Some k2 ∧
    kn_disable t k = Some (k3, Running) ∧
    ∀ k', k' = k1 ∨ k' = k2 ∨ k' = k3 →
      kn_thread_enabled i k' = kn_thread_enabled i k ∧
      kn_thread_suspended i k' = kn_thread_suspended i k ∧
      kn_thread_sleeping i k' = kn_thread_sleeping i k.
Proof.
  intros Hk Ht Hcur Hi Hne. pose proof MAX_THREADS_range.
  do 3 eexists.
  split; [apply kn_suspend_other; assumption |].
  split; [apply kn_resume_eq; assumption |].
  split; [apply kn_disable_other; assumption |].
  intros k' Hk'.
  rewrite !kn_thread_enabled_eq, !kn_thread_suspended_eq,
    !kn_thread_sleeping_eq by assumption.
  unfold slot_bit.
  destruct Hk' as [-> | [-> | ->]]; simpl;
    rewrite ?testbit_set_other, ?testbit_clear_other by lia; auto.
Qed.

(** X17.  Calls on two different slots commute: suspending one slot and
    resuming another gives the same state in either order. *)
Theorem suspend_resume_commute k a b :
  0 <= a < MAX_THREADS → 0 <= b < MAX_THREADS → a ≠ b →
  a ≠ kn_cur_thread k →
  ∃ k1 k2 k12,
    kn_suspend a k = Some (k1, Running) ∧ kn_resume b k1 = Some k12 ∧
    kn_resume b k = Some k2 ∧ kn_suspend a k2 = Some (k12, Running).
Proof.
  intros Ha Hb Hne Hcur. pose proof MAX_THREADS_range.
  do 3 eexists.
  split; [apply kn_suspend_other; assumption |].
  split; [apply kn_resume_eq; assumption |].
  split; [apply kn_resume_eq; assumption |].
  rewrite kn_suspend_other by assumption. simpl.
  rewrite set_clear_commute by lia. reflexivity.
Qed.

End SuspendMore.

(** ** More on long sleeps and on the mask table *)

(** X18.  The chunks of [kn_sleep_long] are as many full chunks of 65535 as
    fit into the duration, followed by the remainder if it is not zero. *)
Theorem sleep_long_shape ms32 :
  0 <= ms32 < 2 ^ 32 →
  kn_sleep_long ms32
  = replicate (Z.to_nat (ms32 / 65535)) 65535
    ++ (if decide (ms32 mod 65535 = 0) then [] else [ms32 mod 65535]).
Proof.
  intros Hms.
  induction ms32 as [ms IH] using (well_founded_induction (Z.lt_wf 0)).
  rewrite kn_sleep_long_eq.
  destruct (decide (ms ≠ 0)) as [Hnz | Hz].
  - unfold UINT16_MAX. destruct (decide (ms > 65535)) as [Hbig | Hsmall].
    + unfold u32. rewrite Z.mod_small by lia. rewrite IH by lia.
      replace (ms / 65535) with ((ms - 65535) / 65535 + 1)
        by (Z.div_mod_to_equations; lia).
      replace (ms mod 65535) with ((ms - 65535) mod 65535)
        by (Z.div_mod_to_equations; lia).
      rewrite Z2Nat.inj_add, Nat.add_comm
        by (try apply Z.div_pos; lia).
      reflexivity.
    + rewrite kn_sleep_long_0, u16_small by lia.
      destruct (decide (ms = 65535)) as [-> | Hlt]; [reflexivity |].
      rewrite Z.div_small, Z.mod_small by lia.
      rewrite decide_False by lia. reflexivity.
  - assert (ms = 0) as -> by lia. reflexivity.
Qed.

(** X19.  Entry [t] of [kn_bitmasks] has bit [t] set and no other bit, so
    the masks of two different thread ids share no bit. *)
Theorem bitmask_is_the_bit_of_its_id t :
  0 <= t < 8 →
  ∃ mask, load kn_bitmasks t = Some mask ∧
          ∀ i, 0 <= i → Z.testbit mask i = (t =? i).
Proof.
  intros Ht. exists (2 ^ t).
  split; [apply (bit_to_mask_pow2 t Ht) |].
  intros i Hi. apply Z.pow2_bits_eqb. lia.
Qed.

(** ** The example board *)

#[local] Existing Instance example_config.

(** Typing of a concrete state, and the tables of the board, by
    evaluation. *)
Ltac typed_by_evaluation :=
  split; simpl; try lia; repeat constructor; lia.

Ltac tables_by_evaluation :=
  split; [reflexivity | intros _; reflexivity].

Lemma kn_init_reset : kn_init reset = Some booted.
Proof. vm_compute. reflexivity. Qed.

Lemma booted_typed : kernel_typed booted.
Proof. typed_by_evaluation. Qed.

Lemma booted_I3 : I3 booted.
Proof. intros i c _ Hbit. unfold slot_bit in Hbit. simpl in Hbit.
  rewrite Z.bits_0 in Hbit. discriminate. Qed.

(** From [kn_init] on, invariant I3 holds after every call and every tick of
    a run in which no thread calls [kn_sleep(0)]. *)
Lemma I3_without_sleep_zero es m :
  Forall event_ok es → Forall (λ e, e ≠ Call (Sleep 0)) es →
  run (booted, Running) es = Some m → I3 m.1.
Proof.
  intros Hes Hnz Hrun.
  eapply run_keeps_I3; eauto using booted_typed, booted_I3.
  tables_by_evaluation.
Qed.

(** C1, where the code breaks it.  Thread 0 creates thread 1 and calls
    [kn_sleep(0)]; thread 1 runs next and calls [kn_resume(1)].  When that
    call has returned, slot 0 has its sleeping bit set and a sleep counter of
    0: invariant I3 does not hold after a public API call has returned. *)
Theorem sleep_zero_breaks_I3 :
  Forall event_ok sleep_zero_run ∧
  ∃ m, run (booted, Running) sleep_zero_run = Some m ∧
       m.2 = Running ∧ kn_cur_thread m.1 = 1 ∧
       kn_thread_sleeping 0 m.1 = Some true ∧
       sleep_state m.1 0 = (true, Some 0) ∧
       ¬ I3 m.1.
Proof.
  split.
  { repeat constructor; simpl; lia. }
  eexists. split; [vm_compute; reflexivity |]. simpl.
  split; [reflexivity |]. split; [reflexivity |]. split; [reflexivity |].
  split; [reflexivity |].
  intros HI3. specialize (HI3 0 0). simpl in HI3.
  assert (0 < 0) by (apply HI3; [lia | reflexivity | reflexivity]). lia.
Qed.

(** The counterexample to C10 as the specification words it.  The board
    reaches [late] by 2^32 - 1 ticks after [kn_init]; [kn_millis] is then
    4294967295, and after the next tick it is 0. *)
Lemma millis_wraps_to_zero :
  ticks (Z.to_nat 4294967295) (booted, Running) = Some (late, Running) ∧
  step (late, Running) Tick = Some (with_system_counter 0 booted, Running) ∧
  kn_millis late = 4294967295 ∧
  kn_millis (with_system_counter 0 booted) = 0 ∧
  ¬ (kn_millis late <= kn_millis (with_system_counter 0 booted)).
Proof.
  split.
  { rewrite ticks_no_sleepers; [| exact booted_typed | reflexivity].
    rewrite Z2Nat.id by lia. reflexivity. }
  split; [vm_compute; reflexivity |].
  split; [reflexivity |]. split; [reflexivity |]. simpl. lia.
Qed.

(** ** The theorems at work on the example board *)

Lemma create_thread_postcondition_witness :
  kernel_typed booted ∧ load kn_stack_base 1 = Some 0x087F ∧
  ∃ k',
    kn_create_thread_impl 1 0x0200 false 0 booted = Some (k', Running) ∧
    slot_bit (kn_disabled_threads k') 1 = false ∧
    slot_bit (kn_sleeping_threads k') 1 = false ∧
    slot_bit (kn_suspended_threads k') 1 = false ∧
    load (kn_sleep_counter k') 1 = Some 0 ∧
    ∃ sp,
      load (kn_stack k') 1 = Some sp ∧
      sp = 0x087F - INITIAL_STACK_USAGE ∧
      0x087F - INITIAL_STACK_USAGE <= sp < 0x087F.
Proof.
  assert (kernel_typed booted) as Hk
    by typed_by_evaluation.
  split; [exact Hk |]. split; [reflexivity |].
  apply (create_thread_postcondition booted 1 0x0200 false 0 0x087F);
    simpl; try lia; try reflexivity; exact Hk.
Defined.

Lemma sleep_long_chunks_witness :
  0 <= 70000 < 2 ^ 32 ∧
  total_sleep (kn_sleep_long 70000) = 70000 ∧
  Forall (λ c, 0 < c <= 65535) (kn_sleep_long 70000) ∧
  (70000 = 0 → kn_sleep_long 70000 = []).
Proof.
  split; [lia |]. apply (sleep_long_chunks 70000). lia.
Defined.

Lemma tick_isr_follows_spec_witness :
  kernel_typed dozing ∧
  ∃ k',
    TIMER0_COMPA_vect dozing = Some k' ∧ k' = tick_spec dozing ∧
    kn_system_counter k' = u32 (kn_system_counter dozing + 1) ∧
    ∀ i c, 0 <= i < MAX_THREADS → load (kn_sleep_counter dozing) i = Some c →
      (slot_bit (kn_sleeping_threads dozing) i = true →
         load (kn_sleep_counter k') i = Some (u16 (c - 1)) ∧
         (slot_bit (kn_sleeping_threads k') i = false ↔ u16 (c - 1) = 0)) ∧
      (slot_bit (kn_sleeping_threads dozing) i = false →
         load (kn_sleep_counter k') i = Some c ∧
         slot_bit (kn_sleeping_threads k') i = false).
Proof.
  assert (kernel_typed dozing) as Hk
    by typed_by_evaluation.
  split; [exact Hk |]. apply (tick_isr_follows_spec dozing). exact Hk.
Defined.

Lemma tick_isr_frame_witness :
  kernel_typed dozing ∧
  ∃ k',
    TIMER0_COMPA_vect dozing = Some k' ∧
    kn_disabled_threads k' = kn_disabled_threads dozing ∧
    kn_suspended_threads k' = kn_suspended_threads dozing ∧
    kn_cur_thread k' = kn_cur_thread dozing ∧
    kn_cur_thread_mask k' = kn_cur_thread_mask dozing ∧
    kn_stack k' = kn_stack dozing ∧
    ram k' = ram dozing ∧ io k' = io dozing.
Proof.
  assert (kernel_typed dozing) as Hk
    by typed_by_evaluation.
  split; [exact Hk |]. apply (tick_isr_frame dozing). exact Hk.
Defined.

Lemma sleep_zero_sleeps_65536_ticks_witness :
  kernel_typed booted ∧ tables_ok ∧
  ∃ m,
    kn_sleep 0 booted = Some m ∧
    sleep_state m.1 0 = (true, Some 0) ∧
    kn_select m.1 ≠ Some 0 ∧
    (∀ n, 1 <= n <= 65535 →
       ∃ m', ticks (Z.to_nat n) m = Some m' ∧
             sleep_state m'.1 0 = (true, Some (65536 - n)) ∧
             kn_select m'.1 ≠ Some 0) ∧
    (∃ m', ticks (Z.to_nat 65536) m = Some m' ∧
           sleep_state m'.1 0 = (false, Some 0)) ∧
    (∀ es m',
       Forall event_ok es →
       Forall (λ e, ¬ recreates 0 e) es →
       count_ticks es <= 65535 →
       run m es = Some m' →
       sleep_state m'.1 0 = (true, Some ((- count_ticks es) mod 2 ^ 16)) ∧
       kn_select m'.1 ≠ Some 0 ∧
       (m'.2 = Running → kn_cur_thread m'.1 ≠ 0)).
Proof.
  assert (kernel_typed booted) as Hk
    by typed_by_evaluation.
  assert tables_ok as Htab by tables_by_evaluation.
  split; [exact Hk |]. split; [exact Htab |].
  exact (proj2 (sleep_zero_sleeps_65536_ticks booted Hk Htab)).
Defined.

Lemma suspend_disable_idempotent_resume_noop_witness :
  kernel_typed booted ∧ 0 <= 1 < MAX_THREADS ∧
  (1 ≠ kn_cur_thread booted →
     (∃ k1, kn_suspend 1 booted = Some (k1, Running) ∧
            kn_suspend 1 k1 = Some (k1, Running)) ∧
     (∃ k1, kn_disable 1 booted = Some (k1, Running) ∧
            kn_disable 1 k1 = Some (k1, Running))) ∧
  (slot_bit (kn_suspended_threads booted) 1 = false →
     kn_resume 1 booted = Some booted) ∧
  (∃ k1, kn_resume 1 booted = Some k1 ∧
         kn_disabled_threads k1 = kn_disabled_threads booted).
Proof.
  assert (kernel_typed booted) as Hk
    by typed_by_evaluation.
  assert (0 <= 1 < MAX_THREADS) as Ht by (simpl; lia).
  split; [exact Hk |]. split; [exact Ht |].
  apply (suspend_disable_idempotent_resume_noop booted 1 Hk Ht).
Defined.

Lemma thread_predicates_witness :
  0 <= 1 < MAX_THREADS ∧
  kn_thread_enabled 1 dozing
    = Some (negb (slot_bit (kn_disabled_threads dozing) 1)) ∧
  kn_thread_suspended 1 dozing =
    Some (negb (slot_bit (kn_disabled_threads dozing) 1) &&
          slot_bit (kn_suspended_threads dozing) 1) ∧
  kn_thread_sleeping 1 dozing =
    Some (negb (slot_bit (kn_disabled_threads dozing) 1) &&
          slot_bit (kn_sleeping_threads dozing) 1) ∧
  (slot_bit (kn_disabled_threads dozing) 1 = true →
     kn_thread_enabled 1 dozing = Some false ∧
     kn_thread_suspended 1 dozing = Some false ∧
     kn_thread_sleeping 1 dozing = Some false).
Proof.
  assert (0 <= 1 < MAX_THREADS) as Ht by (simpl; lia).
  split; [exact Ht |]. apply (thread_predicates dozing 1 Ht).
Defined.

Lemma kn_init_postcondition_witness :
  tables_ok ∧
  ∃ k',
    kn_init reset = Some k' ∧
    kn_cur_thread k' = 0 ∧ kn_cur_thread_mask k' = 0x01 ∧
    kn_disabled_threads k' = 0xFE ∧
    (∀ i, 0 <= i < 8 →
       slot_bit (kn_disabled_threads k') i = negb (i =? 0)) ∧
    kn_suspended_threads k' = 0 ∧ kn_sleeping_threads k' = 0 ∧
    (∀ i, 0 <= i < MAX_THREADS →
       load (kn_sleep_counter k') i = Some 0 ∧
       ∃ base, load kn_stack_base i = Some base ∧
               load (kn_stack k') i = Some base) ∧
    kn_system_counter k' = 0.
Proof.
  assert tables_ok as Htab by tables_by_evaluation.
  split; [exact Htab |].
  apply (kn_init_postcondition reset Htab); reflexivity.
Defined.

Lemma millis_monotonic_until_wrap_witness :
  kernel_typed dozing ∧
  run (dozing, Running) [Tick; Call Millis; Tick]
    = Some (with_sleep_counter [1; 0; 0; 0] (with_system_counter 9 dozing),
            Running) ∧
  kn_millis (with_sleep_counter [1; 0; 0; 0] (with_system_counter 9 dozing))
    = (kn_millis dozing + count_ticks [Tick; Call Millis; Tick]) mod 2 ^ 32 ∧
  (kn_millis dozing + count_ticks [Tick; Call Millis; Tick] < 2 ^ 32 →
   kn_millis dozing
   <= kn_millis (with_sleep_counter [1; 0; 0; 0]
                   (with_system_counter 9 dozing))).
Proof.
  assert (kernel_typed dozing) as Hk
    by typed_by_evaluation.
  assert tables_ok as Htab by tables_by_evaluation.
  assert (Forall event_ok [Tick; Call Millis; Tick]) as Hes
    by (repeat constructor).
  assert (run (dozing, Running) [Tick; Call Millis; Tick]
          = Some (with_sleep_counter [1; 0; 0; 0]
                    (with_system_counter 9 dozing), Running)) as Hrun
    by (vm_compute; reflexivity).
  split; [exact Hk |]. split; [exact Hrun |].
  exact (millis_monotonic_until_wrap dozing Running
           [Tick; Call Millis; Tick] _ Hk Htab Hes Hrun).
Defined.

(** ** The further theorems at work on the example board *)

Lemma create_frame_round_trip_witness :
  kernel_typed booted ∧ load kn_stack_base 1 = Some 0x087F ∧
  ∃ k' sp,
    kn_create_thread_impl 1 0x0200 false 0x0300 booted = Some (k', Running) ∧
    load (kn_stack k') 1 = Some sp ∧
    frame_word k' sp 19 = Some (u16 kn_thread_bootstrap) ∧
    ram k' !! u16 (sp + 21) = Some 1 ∧
    frame_word k' sp 22 = Some (u16 0x0300) ∧
    frame_word k' sp 24 = Some (u16 0x0200).
Proof.
  assert (kernel_typed booted) as Hk by typed_by_evaluation.
  split; [exact Hk |]. split; [reflexivity |].
  apply (create_frame_round_trip booted 1 0x0200 false 0x0300 0x087F Hk);
    simpl; try lia; reflexivity.
Defined.

Lemma create_writes_only_frame_witness :
  kernel_typed booted ∧ load kn_stack_base 1 = Some 0x087F ∧
  25 <= INITIAL_STACK_USAGE <= 0x087F ∧
  ∃ k',
    kn_create_thread_impl 1 0x0200 false 0x0300 booted = Some (k', Running) ∧
    ∀ a, ram k' !! a ≠ ram booted !! a →
      0x087F - INITIAL_STACK_USAGE + 19 <= a <= 0x087F.
Proof.
  assert (kernel_typed booted) as Hk by typed_by_evaluation.
  assert (25 <= INITIAL_STACK_USAGE <= 0x087F) as Hu by (simpl; lia).
  split; [exact Hk |]. split; [reflexivity |]. split; [exact Hu |].
  apply (create_writes_only_frame booted 1 0x0200 false 0x0300 0x087F Hk);
    simpl; try lia; reflexivity.
Defined.

Lemma create_keeps_other_slots_witness :
  kernel_typed booted ∧ load kn_stack_base 1 = Some 0x087F ∧
  ∃ k',
    kn_create_thread_impl 1 0x0200 true 0x0300 booted = Some (k', Running) ∧
    kn_cur_thread k' = kn_cur_thread booted ∧
    kn_cur_thread_mask k' = kn_cur_thread_mask booted ∧
    kn_system_counter k' = kn_system_counter booted ∧
    io k' = io booted ∧
    ∀ i, 0 <= i < MAX_THREADS → i ≠ 1 →
      slot_bit (kn_disabled_threads k') i
        = slot_bit (kn_disabled_threads booted) i ∧
      slot_bit (kn_suspended_threads k') i
        = slot_bit (kn_suspended_threads booted) i ∧
      slot_bit (kn_sleeping_threads k') i
        = slot_bit (kn_sleeping_threads booted) i ∧
      load (kn_sleep_counter k') i = load (kn_sleep_counter booted) i ∧
      load (kn_stack k') i = load (kn_stack booted) i.
Proof.
  assert (kernel_typed booted) as Hk by typed_by_evaluation.
  split; [exact Hk |]. split; [reflexivity |].
  apply (create_keeps_other_slots booted 1 0x0200 true 0x0300 0x087F Hk);
    simpl; try lia; reflexivity.
Defined.

Lemma create_then_predicates_witness :
  kernel_typed booted ∧ load kn_stack_base 1 = Some 0x087F ∧
  ∃ k',
    kn_create_thread_impl 1 0x0200 true 0x0300 booted = Some (k', Running) ∧
    kn_thread_enabled 1 k' = Some true ∧
    kn_thread_suspended 1 k' = Some true ∧
    kn_thread_sleeping 1 k' = Some false.
Proof.
  assert (kernel_typed booted) as Hk by typed_by_evaluation.
  split; [exact Hk |]. split; [reflexivity |].
  apply (create_then_predicates booted 1 0x0200 true 0x0300 0x087F Hk);
    simpl; try lia; reflexivity.
Defined.

Lemma kn_init_registers_witness :
  tables_ok ∧
  ∃ k' base0,
    kn_init reset = Some k' ∧
    load kn_stack_base 0 = Some base0 ∧ SP (io k') = base0 ∧
    OCR0A (io k') = 250 ∧ SMCR (io k') = 0 ∧
    ∀ i, 0 <= i < 8 →
      Z.testbit (TCCR0A (io k')) i
        = (Z.testbit (TCCR0A (io reset)) i || (i =? 1)) ∧
      Z.testbit (TCCR0B (io k')) i
        = (Z.testbit (TCCR0B (io reset)) i || (i =? 0) || (i =? 1)) ∧
      Z.testbit (TIMSK0 (io k')) i
        = (Z.testbit (TIMSK0 (io reset)) i || (i =? 1)).
Proof.
  assert tables_ok as Htab by tables_by_evaluation.
  split; [exact Htab |].
  apply (kn_init_registers reset Htab); reflexivity.
Defined.

Lemma kn_init_canaries_witness :
  tables_ok ∧
  ∃ k',
    kn_init reset = Some k' ∧
    (KERNEL_USE_STACK_CANARY = false → ram k' = ram reset) ∧
    (KERNEL_USE_STACK_CANARY = true →
       (∀ j, 0 <= j < MAX_THREADS →
          ∃ c, load kn_canary_loc j = Some c ∧
               ram k' !! u16 c = Some STACK_CANARY) ∧
       (∀ a, (∀ j c, 0 <= j < MAX_THREADS → load kn_canary_loc j = Some c →
                     a ≠ u16 c) →
             ram k' !! a = ram reset !! a)).
Proof.
  assert tables_ok as Htab by tables_by_evaluation.
  split; [exact Htab |].
  apply (kn_init_canaries reset Htab); reflexivity.
Defined.

Lemma kn_init_then_predicates_witness :
  tables_ok ∧
  ∃ k',
    kn_init reset = Some k' ∧
    ∀ i, 0 <= i < MAX_THREADS →
      kn_thread_enabled i k' = Some (i =? 0) ∧
      kn_thread_suspended i k' = Some false ∧
      kn_thread_sleeping i k' = Some false.
Proof.
  assert tables_ok as Htab by tables_by_evaluation.
  split; [exact Htab |].
  apply (kn_init_then_predicates reset Htab); reflexivity.
Defined.

Lemma I3_holds_from_init_witness :
  tables_ok ∧ kn_init reset = Some booted ∧
  ∃ m,
    run (booted, Running)
      [Call (CreateThread 1 0x0200 false 0); Call (Sleep 2); Tick;
       Call (Suspend 1); Tick; Tick] = Some m ∧
    I3 m.1.
Proof.
  assert tables_ok as Htab by tables_by_evaluation.
  assert (kn_init reset = Some booted) as Hinit by (vm_compute; reflexivity).
  assert { m | run (booted, Running)
                 [Call (CreateThread 1 0x0200 false 0); Call (Sleep 2); Tick;
                  Call (Suspend 1); Tick; Tick] = Some m } as [m Hrun]
    by (eexists; vm_compute; reflexivity).
  split; [exact Htab |]. split; [exact Hinit |].
  exists m. split; [exact Hrun |].
  apply (I3_holds_from_init reset booted
           [Call (CreateThread 1 0x0200 false 0); Call (Sleep 2); Tick;
            Call (Suspend 1); Tick; Tick] m Htab eq_refl eq_refl Hinit);
    [| | exact Hrun].
  - repeat constructor; simpl; lia.
  - repeat constructor; discriminate.
Defined.

Lemma tick_never_sets_sleeping_witness :
  kernel_typed dozing ∧
  ∃ k',
    TIMER0_COMPA_vect dozing = Some k' ∧
    ∀ i, 0 <= i →
      slot_bit (kn_sleeping_threads k') i = true →
      slot_bit (kn_sleeping_threads dozing) i = true.
Proof.
  assert (kernel_typed dozing) as Hk by typed_by_evaluation.
  split; [exact Hk |]. apply (tick_never_sets_sleeping dozing Hk).
Defined.

Lemma tick_without_sleepers_witness :
  kn_sleeping_threads booted = 0 ∧
  TIMER0_COMPA_vect booted
  = Some (with_system_counter (u32 (kn_system_counter booted + 1)) booted).
Proof.
  split; [reflexivity |]. apply (tick_without_sleepers booted). reflexivity.
Defined.

Lemma sleep_lasts_ms_ticks_witness :
  kernel_typed booted ∧ tables_ok ∧
  ∃ m,
    kn_sleep 100 booted = Some m ∧
    (∀ es m',
       Forall event_ok es →
       Forall (λ e, ¬ recreates (kn_cur_thread booted) e) es →
       count_ticks es < 100 →
       run m es = Some m' →
       sleep_state m'.1 (kn_cur_thread booted)
         = (true, Some (100 - count_ticks es)) ∧
       (m'.2 = Running → kn_cur_thread m'.1 ≠ kn_cur_thread booted)) ∧
    (∀ n, 0 <= n < 100 →
       ∃ m', ticks (Z.to_nat n) m = Some m' ∧
             sleep_state m'.1 (kn_cur_thread booted)
               = (true, Some (100 - n))) ∧
    ∃ m', ticks (Z.to_nat 100) m = Some m' ∧
          sleep_state m'.1 (kn_cur_thread booted) = (false, Some 0).
Proof.
  assert (kernel_typed booted) as Hk by typed_by_evaluation.
  assert tables_ok as Htab by tables_by_evaluation.
  split; [exact Hk |]. split; [exact Htab |].
  apply (sleep_lasts_ms_ticks booted 100 Hk Htab). lia.
Defined.


Lemma suspend_resume_round_trip_witness :
  kernel_typed booted ∧ 0 <= 1 < MAX_THREADS ∧ 1 ≠ kn_cur_thread booted ∧
  (slot_bit (kn_suspended_threads booted) 1 = false →
     ∃ k1, kn_suspend 1 booted = Some (k1, Running) ∧
           kn_resume 1 k1 = Some booted) ∧
  (slot_bit (kn_suspended_threads booted) 1 = true →
     ∃ k1, kn_resume 1 booted = Some k1 ∧
           kn_suspend 1 k1 = Some (booted, Running)).
Proof.
  assert (kernel_typed booted) as Hk by typed_by_evaluation.
  assert (0 <= 1 < MAX_THREADS) as Ht by (simpl; lia).
  assert (1 ≠ kn_cur_thread booted) as Hcur by (simpl; lia).
  split; [exact Hk |]. split; [exact Ht |]. split; [exact Hcur |].
  apply (suspend_resume_round_trip booted 1 Hk Ht Hcur).
Defined.

Lemma predicates_after_calls_witness :
  kernel_typed booted ∧ 0 <= 1 < MAX_THREADS ∧ 1 ≠ kn_cur_thread booted ∧
  (∃ k1, kn_suspend 1 booted = Some (k1, Running) ∧
         kn_thread_suspended 1 k1 = kn_thread_enabled 1 booted) ∧
  (∃ k1, kn_resume 1 booted = Some k1 ∧
         kn_thread_suspended 1 k1 = Some false) ∧
  (∃ k1 k2, kn_disable 1 booted = Some (k1, Running) ∧
            kn_thread_enabled 1 k1 = Some false ∧
            kn_thread_suspended 1 k1 = Some false ∧
            kn_thread_sleeping 1 k1 = Some false ∧
            kn_resume 1 k1 = Some k2 ∧
            kn_thread_enabled 1 k2 = Some false).
Proof.
  assert (kernel_typed booted) as Hk by typed_by_evaluation.
  assert (0 <= 1 < MAX_THREADS) as Ht by (simpl; lia).
  assert (1 ≠ kn_cur_thread booted) as Hcur by (simpl; lia).
  split; [exact Hk |]. split; [exact Ht |]. split; [exact Hcur |].
  apply (predicates_after_calls booted 1 Hk Ht Hcur).
Defined.

Lemma calls_keep_other_slots_witness :
  kernel_typed dozing ∧ 0 <= 2 < MAX_THREADS ∧ 2 ≠ kn_cur_thread dozing ∧
  0 <= 0 < MAX_THREADS ∧
  ∃ k1 k2 k3,
    kn_suspend 2 dozing = Some (k1, Running) ∧
    kn_resume 2 dozing = Some k2 ∧
    kn_disable 2 dozing = Some (k3, Running) ∧
    ∀ k', k' = k1 ∨ k' = k2 ∨ k' = k3 →
      kn_thread_enabled 0 k' = kn_thread_enabled 0 dozing ∧
      kn_thread_suspended 0 k' = kn_thread_suspended 0 dozing ∧
      kn_thread_sleeping 0 k' = kn_thread_sleeping 0 dozing.
Proof.
  assert (kernel_typed dozing) as Hk by typed_by_evaluation.
  assert (0 <= 2 < MAX_THREADS) as Ht by (simpl; lia).
  assert (2 ≠ kn_cur_thread dozing) as Hcur by (simpl; lia).
  assert (0 <= 0 < MAX_THREADS) as Hi by (simpl; lia).
  split; [exact Hk |]. split; [exact Ht |]. split; [exact Hcur |].
  split; [exact Hi |].
  apply (calls_keep_other_slots dozing 2 0 Hk Ht Hcur Hi). lia.
Defined.

Lemma suspend_resume_commute_witness :
  0 <= 1 < MAX_THREADS ∧ 0 <= 2 < MAX_THREADS ∧ 1 ≠ kn_cur_thread booted ∧
  ∃ k1 k2 k12,
    kn_suspend 1 booted = Some (k1, Running) ∧ kn_resume 2 k1 = Some k12 ∧
    kn_resume 2 booted = Some k2 ∧ kn_suspend 1 k2 = Some (k12, Running).
Proof.
  assert (0 <= 1 < MAX_THREADS) as Ha by (simpl; lia).
  assert (0 <= 2 < MAX_THREADS) as Hb by (simpl; lia).
  assert (1 ≠ kn_cur_thread booted) as Hcur by (simpl; lia).
  split; [exact Ha |]. split; [exact Hb |]. split; [exact Hcur |].
  apply (suspend_resume_commute booted 1 2 Ha Hb); [lia | exact Hcur].
Defined.

Lemma sleep_long_shape_witness :
  0 <= 200000 < 2 ^ 32 ∧
  kn_sleep_long 200000
  = replicate (Z.to_nat (200000 / 65535)) 65535
    ++ (if decide (200000 mod 65535 = 0) then [] else [200000 mod 65535]).
Proof.
  split; [lia |]. apply (sleep_long_shape 200000). lia.
Defined.

Lemma steps_are_safe_witness :
  kernel_typed booted ∧ tables_ok ∧ event_ok (Call (Sleep 5)) ∧
  ∃ m, step (booted, Running) (Call (Sleep 5)) = Some m ∧ kernel_typed m.1.
Proof.
  assert (kernel_typed booted) as Hk by typed_by_evaluation.
  assert tables_ok as Htab by tables_by_evaluation.
  assert (event_ok (Call (Sleep 5))) as He by (simpl; lia).
  split; [exact Hk |]. split; [exact Htab |]. split; [exact He |].
  apply (steps_are_safe booted (Call (Sleep 5)) Hk Htab He).
Defined.

Lemma bitmask_is_the_bit_of_its_id_witness :
  0 <= 3 < 8 ∧
  ∃ mask, load kn_bitmasks 3 = Some mask ∧
          ∀ i, 0 <= i → Z.testbit mask i = (3 =? i).
Proof.
  split; [lia |]. apply (bitmask_is_the_bit_of_its_id 3). lia.
Defined.
